(** * ZomaBot: the support agent of [agent.py] and its driver [testing.py]

    A shallow embedding of the tools, the two graph nodes, the routing
    function and the compiled graph of [agent.py], together with the
    properties of the agent loop.

    The language model, the process environment and the HTTP transport are
    outside the program: they are parameters of the development (an abstract
    [World] with one oracle each).  The graph runtime (LangGraph's
    [StateGraph], its super-step loop and [ToolNode]) is a library the
    program calls; the part of its behaviour the program relies on is written
    out where it is used and marked as library behaviour. *)

From stdpp Require Import gmap strings list pretty.
From Stdlib Require Import ZArith Lia Ascii.

Local Open Scope string_scope.
Local Open Scope Z_scope.
Local Open Scope list_scope.

(** ** Messages *)

(** A JSON argument value as it reaches a tool: text or an integer. *)
Inductive value : Type :=
| VStr (s : string)
| VInt (n : Z).

(** One entry of [AIMessage.tool_calls]. *)
Record ToolCall : Type := mkToolCall {
  tc_name : string;
  tc_args : gmap string value;
  tc_id : string
}.

(** [ToolMessage.status]. *)
Inductive Status : Type := status_success | status_error.

(** [BaseMessage] and the four subclasses the program handles. *)
Inductive Message : Type :=
| SystemMessage (content : string)
| HumanMessage (content : string)
| AIMessage (content : string) (tool_calls : list ToolCall)
| ToolMessage (content : string) (name : string) (tool_call_id : string)
              (status : Status).

(** [class AgentState(TypedDict)]: one key, [messages], merged with
    [operator.add]. *)
Record AgentState : Type := mkState { messages : list Message }.

(** The reducer of the [messages] channel: [operator.add] on sequences. *)
Definition operator_add (st : AgentState) (update : list Message) : AgentState :=
  mkState (messages st ++ update).

(** ** Exceptions and effects *)

Inductive exn : Type :=
| IndexError            (* [state["messages"][-1]] on an empty list *)
| AttributeError        (* [.tool_calls] on a message that has none *)
| ValueError            (* ToolNode: last message is not an AIMessage *)
| ValidationError       (* a tool's argument schema rejects the arguments *)
| ModelError (msg : string)   (* the model endpoint raised *)
| GraphRecursionError.  (* the recursion limit was reached *)

Inductive Result (A : Type) : Type :=
| Ok (a : A)
| Raise (e : exn).
Arguments Ok {A} a.
Arguments Raise {A} e.

(** What [requests.post] does: it returns a response, whatever its status
    code, or raises (connection error, timeout, ...) with a text [str(e)]. *)
Inductive PostOutcome : Type :=
| Response (status_code : Z)
| RequestException (str_e : string).

(** The observable effects of a run, in the order they happen. *)
Inductive Event : Type :=
| EvModel (seen : list Message)        (* [llm_with_tools.invoke(messages)] *)
| EvTool (call : ToolCall)             (* ToolNode handles one invocation *)
| EvPost (url : string) (data : gmap string string).  (* [requests.post] *)

Definition is_model (e : Event) : bool :=
  match e with EvModel _ => true | _ => false end.
Definition is_tool (e : Event) : bool :=
  match e with EvTool _ => true | _ => false end.
Definition is_post (e : Event) : bool :=
  match e with EvPost _ _ => true | _ => false end.

Fixpoint count_events (p : Event -> bool) (tr : list Event) : nat :=
  match tr with
  | [] => O
  | e :: tr' => ((if p e then 1 else 0) + count_events p tr')%nat
  end.

Definition only_posts (tr : list Event) : Prop :=
  Forall (fun e => is_post e = true) tr.

(** A model call of the trace saw a transcript that satisfies [P]. *)
Definition model_saw (P : list Message -> Prop) (e : Event) : Prop :=
  match e with
  | EvModel seen => P seen
  | _ => True
  end.

(** ** Pure tools *)

Definition process_refund (item_name reason : string)
    (refund_amount_percentage : Z) : string :=
  "SUCCESS: Refund processed for '" +:+ item_name +:+ "'. Reason: " +:+ reason
  +:+ ". Amount: " +:+ pretty refund_amount_percentage
  +:+ "% credited to wallet.".

Definition contact_delivery_partner (message : string) : string :=
  "RIDER_ALERT: Message sent to rider -> '" +:+ message
  +:+ "'. Rider will call customer shortly.".

(** ** The effect monad

    A computation reads and updates the outside world, appends to the trace
    of effects, and returns a value or raises. *)

Record Env (World : Type) : Type := mkEnv {
  world : World;
  trace : list Event
}.
Arguments mkEnv {World} world trace.
Arguments world {World} e.
Arguments trace {World} e.

Definition M (World A : Type) : Type := Env World -> Result A * Env World.

Definition ret {World A} (a : A) : M World A := fun env => (Ok a, env).

Definition raise {World A} (e : exn) : M World A := fun env => (Raise e, env).

Definition bind {World A B} (m : M World A) (k : A -> M World B) : M World B :=
  fun env =>
    match m env with
    | (Ok a, env') => k a env'
    | (Raise e, env') => (Raise e, env')
    end.

Definition emit {World} (e : Event) : M World unit :=
  fun env => (Ok tt, mkEnv (world env) (trace env ++ [e])).

Notation "'let*' x ':=' m 'in' k" := (bind m (fun x => k))
  (at level 10, x name, m at level 100, k at level 200).
Notation "'do' m 'then' k" := (bind m (fun _ => k))
  (at level 10, m at level 100, k at level 200).

(** [[f(x) for x in xs]], left to right. *)
Fixpoint mapM {World A B} (f : A -> M World B) (xs : list A) : M World (list B) :=
  match xs with
  | [] => ret []
  | x :: xs' => let* y := f x in let* ys := mapM f xs' in ret (y :: ys)
  end.

(** ** Text constants of [agent.py] *)

Definition newline : string := String "010"%char EmptyString.

(** The eight bytes written before and after the alert banner in the source
    file (a twice-encoded emoji). *)
Definition siren : string :=
  String "195"%char (String "176"%char (String "197"%char (String "184"%char
  (String "197"%char (String "161"%char (String "194"%char (String "168"%char
  EmptyString))))))).

Definition alert_text (issue_summary urgency : string) : string :=
  siren +:+ " **ADMIN ALERT** " +:+ siren +:+ newline +:+ "Urgency: " +:+ urgency
  +:+ newline +:+ "Issue: " +:+ issue_summary.

Definition telegram_url (token : string) : string :=
  "https://api.telegram.org/bot" +:+ token +:+ "/sendMessage".

Definition ESCALATED_OK : string :=
  "ESCALATED: Admin has been notified via Telegram channel.".
Definition ESCALATED_SIMULATION : string :=
  "ESCALATED: Admin notified (Simulation Mode - No Token Found).".
Definition escalation_failed (str_e : string) : string :=
  "ESCALATION FAILED: " +:+ str_e.

(** Python truthiness of [os.getenv(...)]: [None] and the empty string are
    false. *)
Definition truthy (o : option string) : bool :=
  match o with
  | Some s => negb (String.eqb s "")
  | None => false
  end.

(** The three tools, in the order of the list [tools]. *)
Inductive Tool : Type :=
| tool_process_refund
| tool_contact_delivery_partner
| tool_escalate_to_support_admin.

Definition tool_name (t : Tool) : string :=
  match t with
  | tool_process_refund => "process_refund"
  | tool_contact_delivery_partner => "contact_delivery_partner"
  | tool_escalate_to_support_admin => "escalate_to_support_admin"
  end.

Definition tools : list Tool :=
  [tool_process_refund; tool_contact_delivery_partner;
   tool_escalate_to_support_admin].

(** [ToolNode.tools_by_name]. *)
Definition tools_by_name (name : string) : option Tool :=
  List.find (fun t => String.eqb (tool_name t) name) tools.

(** ** Routing *)

(** The two values [should_continue] returns: ["tools"] and [END]. *)
Inductive Route : Type := route_tools | route_END.

Definition should_continue (state : AgentState) : Result Route :=
  match last (messages state) with
  | None => Raise IndexError
  | Some (AIMessage _ tool_calls) =>
      match tool_calls with
      | _ :: _ => Ok route_tools
      | [] => Ok route_END
      end
  | Some _ => Raise AttributeError
  end.

(** ** The graph of [workflow] *)

Inductive NodeName : Type := START | agent | tools_node.

Inductive Target : Type := Goto (n : NodeName) | END.

(** [workflow.set_entry_point("agent")]. *)
Definition entry_point : NodeName := agent.

(** The path map of [add_conditional_edges]: [{"tools": "tools", END: END}]. *)
Definition path_map (r : Route) : Target :=
  match r with
  | route_tools => Goto tools_node
  | route_END => END
  end.

(** The edges leaving a node, evaluated on the state the node produced. *)
Definition next_of (n : NodeName) (state : AgentState) : Result Target :=
  match n with
  | START => Ok (Goto entry_point)
  | agent =>
      match should_continue state with
      | Ok r => Ok (path_map r)
      | Raise e => Raise e
      end
  | tools_node => Ok (Goto agent)     (* [workflow.add_edge("tools", "agent")] *)
  end.

(** ** The program over an abstract outside world *)

Section Agent.

Context {World : Type}.

(** [os.environ] as the process sees it when a tool runs. *)
Variable environ : World -> gmap string string.

(** [requests.post(url, data=...)]: the transport, with its own state. *)
Variable requests_post :
  string -> gmap string string -> World -> PostOutcome * World.

(** [llm_with_tools.invoke(messages)]: the reply is always an [AIMessage],
    given here by its content and its tool calls; the endpoint may raise. *)
Variable llm_with_tools_invoke :
  list Message -> World -> Result (string * list ToolCall) * World.

(** How the argument schema of a tool reads an integer out of text (the
    schema library accepts numeric text for an [int] parameter). *)
Variable int_of_str : string -> option Z.

(** The text ToolNode puts in the tool message when a call raised. *)
Variable tool_error_text : ToolCall -> exn -> string.

Local Abbreviation Eff := (M World).

Definition os_getenv (key : string) : Eff (option string) :=
  fun env => (Ok (environ (world env) !! key), env).

Definition post (url : string) (data : gmap string string) : Eff PostOutcome :=
  fun env =>
    let (outcome, w') := requests_post url data (world env) in
    (Ok outcome, mkEnv w' (trace env ++ [EvPost url data])).

(** *** [escalate_to_support_admin] *)

Definition escalate_to_support_admin (issue_summary urgency : string)
  : Eff string :=
  let* token := os_getenv "TELEGRAM_BOT_TOKEN" in
  let* chat_id := os_getenv "TELEGRAM_CHAT_ID" in
  let text := alert_text issue_summary urgency in
  match token, chat_id with
  | Some t, Some c =>
      if truthy token && truthy chat_id then
        let* outcome :=
          post (telegram_url t) (<["chat_id" := c]> (<["text" := text]> ∅)) in
        match outcome with
        | Response _ => ret ESCALATED_OK
        | RequestException str_e => ret (escalation_failed str_e)
        end
      else ret ESCALATED_SIMULATION
  | _, _ => ret ESCALATED_SIMULATION
  end.

(** *** Calling a tool with the arguments of a tool call

    The [@tool] decorator derives the argument schema from the signature:
    a [str] parameter takes text only, an [int] parameter takes an integer
    or numeric text, a parameter without default is required, and keys the
    signature does not name are dropped. *)

Definition arg_str (args : gmap string value) (key : string) : option string :=
  match args !! key with
  | Some (VStr s) => Some s
  | _ => None
  end.

Definition arg_int (args : gmap string value) (key : string) (default : Z)
  : option Z :=
  match args !! key with
  | Some (VInt n) => Some n
  | Some (VStr s) => int_of_str s
  | None => Some default
  end.

Definition invoke_tool (t : Tool) (args : gmap string value) : Eff string :=
  match t with
  | tool_process_refund =>
      match arg_str args "item_name", arg_str args "reason",
            arg_int args "refund_amount_percentage" 100 with
      | Some item_name, Some reason, Some pct =>
          ret (process_refund item_name reason pct)
      | _, _, _ => raise ValidationError
      end
  | tool_contact_delivery_partner =>
      match arg_str args "message" with
      | Some message => ret (contact_delivery_partner message)
      | None => raise ValidationError
      end
  | tool_escalate_to_support_admin =>
      match arg_str args "issue_summary", arg_str args "urgency" with
      | Some issue_summary, Some urgency =>
          escalate_to_support_admin issue_summary urgency
      | _, _ => raise ValidationError
      end
  end.

(** *** [tool_node = ToolNode(tools)] (library behaviour)

    For the last message of the state, which must be an [AIMessage], every
    tool call is answered by one [ToolMessage] carrying the call's id, in
    the order of the calls.  A name that is not registered and a call that
    raised are answered by a message of status [error]; nothing is
    re-raised.  The library may start the calls of one turn concurrently;
    the trace lists them in the order of their results. *)

Definition invalid_tool_name_error (requested_tool : string) : string :=
  "Error: " +:+ requested_tool +:+ " is not a valid tool, try one of ["
  +:+ String.concat ", " (map tool_name tools) +:+ "].".

Definition run_one (call : ToolCall) : Eff Message :=
  do emit (EvTool call) then
  match tools_by_name (tc_name call) with
  | None =>
      ret (ToolMessage (invalid_tool_name_error (tc_name call))
             (tc_name call) (tc_id call) status_error)
  | Some t =>
      fun env =>
        match invoke_tool t (tc_args call) env with
        | (Ok text, env') =>
            (Ok (ToolMessage text (tc_name call) (tc_id call) status_success),
             env')
        | (Raise e, env') =>
            (Ok (ToolMessage (tool_error_text call e) (tc_name call)
                   (tc_id call) status_error), env')
        end
  end.

Definition tool_node (state : AgentState) : Eff (list Message) :=
  match last (messages state) with
  | Some (AIMessage _ tool_calls) => mapM run_one tool_calls
  | _ => raise ValueError
  end.

(** *** [agent_node] *)

Definition agent_node (state : AgentState) : Eff (list Message) :=
  fun env =>
    let seen := messages state in
    match llm_with_tools_invoke seen (world env) with
    | (Ok (content, tool_calls), w') =>
        (Ok [AIMessage content tool_calls],
         mkEnv w' (trace env ++ [EvModel seen]))
    | (Raise e, w') => (Raise e, mkEnv w' (trace env ++ [EvModel seen]))
    end.

(** *** The compiled graph (library behaviour)

    The runtime executes the graph in super-steps, one node per step here.
    The first step is the [START] node, which writes the caller's input
    into the state; each later step runs a node, merges its update with
    the reducer and evaluates the node's outgoing edges.  Before a step the
    runtime checks the step counter against the recursion limit, and only
    then whether anything is left to run: [remaining] is the number of
    steps the counter still allows. *)

Definition run_node (input : list Message) (n : NodeName) (state : AgentState)
  : Eff (list Message) :=
  match n with
  | START => ret input
  | agent => agent_node state
  | tools_node => tool_node state
  end.

Fixpoint pregel_loop (input : list Message) (remaining : nat) (next : Target)
    (state : AgentState) : Eff AgentState :=
  match remaining with
  | O => raise GraphRecursionError
  | S remaining' =>
      match next with
      | END => ret state
      | Goto n =>
          let* update := run_node input n state in
          let state' := operator_add state update in
          match next_of n state' with
          | Ok next' => pregel_loop input remaining' next' state'
          | Raise e => raise e
          end
      end
  end.

(** [agent_app.ainvoke({"messages": input}, config={"recursion_limit": n})]. *)
Definition agent_app_invoke (input : list Message) (recursion_limit : nat)
  : Eff AgentState :=
  match recursion_limit with
  | O => raise ValueError
  | S _ => pregel_loop input (S recursion_limit) (Goto START) (mkState [])
  end.

(** The call of [run_tests]: recursion limit 10. *)
Definition run_case (input : list Message) : Eff AgentState :=
  agent_app_invoke input 10.

End Agent.

(** ** Argument schemas as data

    The schema the [@tool] decorator reads off each signature: parameter
    name, annotated type, and whether the parameter has no default. *)

Inductive ParamType : Type := type_str | type_int.

Record Param : Type := mkParam {
  p_name : string;
  p_type : ParamType;
  p_required : bool
}.

Definition args_schema (t : Tool) : list Param :=
  match t with
  | tool_process_refund =>
      [mkParam "item_name" type_str true; mkParam "reason" type_str true;
       mkParam "refund_amount_percentage" type_int false]
  | tool_contact_delivery_partner => [mkParam "message" type_str true]
  | tool_escalate_to_support_admin =>
      [mkParam "issue_summary" type_str true; mkParam "urgency" type_str true]
  end.

(** Does [args] give parameter [p] a value the schema takes? *)
Definition param_ok (int_of_str : string -> option Z)
    (args : gmap string value) (p : Param) : bool :=
  match args !! p_name p with
  | None => negb (p_required p)
  | Some (VStr s) =>
      match p_type p with
      | type_str => true
      | type_int => match int_of_str s with Some _ => true | None => false end
      end
  | Some (VInt _) =>
      match p_type p with
      | type_str => false
      | type_int => true
      end
  end.

Definition schema_accepts (int_of_str : string -> option Z) (t : Tool)
    (args : gmap string value) : bool :=
  forallb (param_ok int_of_str args) (args_schema t).

(** The status ToolNode gives the answer to [call]: [error] for a name that
    is not registered and for arguments the schema rejects. *)
Definition expected_status (int_of_str : string -> option Z) (call : ToolCall)
  : Status :=
  match tools_by_name (tc_name call) with
  | None => status_error
  | Some t =>
      if schema_accepts int_of_str t (tc_args call) then status_success
      else status_error
  end.

(** ** Referential integrity of a transcript

    [scan pending ms] reads [ms] from left to right.  [pending] holds the tool
    calls of the latest [AIMessage] that are not answered yet; the next
    message must then be the [ToolMessage] with the id of the first pending
    call.  A [ToolMessage] with nothing pending, or any other message while
    calls are pending, breaks integrity.  The result is what is still pending
    at the end. *)

Fixpoint scan (pending : list ToolCall) (ms : list Message)
  : option (list ToolCall) :=
  match ms with
  | [] => Some pending
  | m :: ms' =>
      match pending with
      | call :: pending' =>
          match m with
          | ToolMessage _ _ tool_call_id _ =>
              if String.eqb tool_call_id (tc_id call) then scan pending' ms'
              else None
          | _ => None
          end
      | [] =>
          match m with
          | AIMessage _ tool_calls => scan tool_calls ms'
          | ToolMessage _ _ _ _ => None
          | _ => scan [] ms'
          end
      end
  end.

(** Every tool call of the transcript is answered and every tool message
    answers one. *)
Definition answered (ms : list Message) : bool :=
  match scan [] ms with
  | Some [] => true
  | _ => false
  end.

(** The tool calls requested in a transcript, and its tool messages. *)
Definition calls_of (m : Message) : list ToolCall :=
  match m with
  | AIMessage _ tool_calls => tool_calls
  | _ => []
  end.

(** How many calls of [calls] carry the id [id]. *)
Fixpoint occurrences (id : string) (calls : list ToolCall) : nat :=
  match calls with
  | [] => O
  | call :: calls' =>
      ((if String.eqb (tc_id call) id then 1 else 0) + occurrences id calls')%nat
  end.

(** How many tool calls of the transcript carry the id [id], and how many
    tool messages answer that id. *)
Fixpoint count_invocations (id : string) (ms : list Message) : nat :=
  match ms with
  | [] => O
  | m :: ms' => (occurrences id (calls_of m) + count_invocations id ms')%nat
  end.

Fixpoint count_results (id : string) (ms : list Message) : nat :=
  match ms with
  | [] => O
  | ToolMessage _ _ tool_call_id _ :: ms' =>
      ((if String.eqb tool_call_id id then 1 else 0) + count_results id ms')%nat
  | _ :: ms' => count_results id ms'
  end.

(** [needle] occurs in [text] as it is. *)
Definition occurs_in (needle text : string) : Prop :=
  exists before after, text = before +:+ needle +:+ after.

(** ** The test harness of [testing.py]

    The fixture file is outside the program: [run_tests] is given the list
    that [json.load] returns.  A fixture value is text, an integer, a list or
    an object; [str()] of text is the text itself and of an integer its
    decimal form, and the text Python gives a list or an object is a
    parameter. *)

#[warnings="-register-all"]
Inductive json : Type :=
| JStr (s : string)
| JInt (n : Z)
| JList (items : list json)
| JObj (fields : gmap string json).

(** What the harness can raise on its own, beside what the agent raises. *)
Inductive harness_exn : Type :=
| KeyError (key : string)      (* [d[key]] on a dict without the key *)
| TypeError                    (* [v[key]] on a value that is not a dict *)
| AgentRaised (e : exn).       (* raised inside [agent_app.ainvoke] or by
                                  [history[-1]] *)

Inductive HResult (A : Type) : Type :=
| HOk (a : A)
| HRaise (e : harness_exn).
Arguments HOk {A} a.
Arguments HRaise {A} e.

Definition hthen {A B} (r : HResult A) (k : A -> HResult B) : HResult B :=
  match r with
  | HOk a => k a
  | HRaise e => HRaise e
  end.

(** [v[key]] with a text key. *)
Definition getitem (v : json) (key : string) : HResult json :=
  match v with
  | JObj fields =>
      match fields !! key with
      | Some x => HOk x
      | None => HRaise (KeyError key)
      end
  | _ => HRaise TypeError
  end.

(** [str(v)], as an f-string field renders [v]. *)
Definition py_str (container_text : json -> string) (v : json) : string :=
  match v with
  | JStr s => s
  | JInt n => pretty n
  | _ => container_text v
  end.

Definition dquote : string := String "034"%char EmptyString.

Definition format_context_prompt (container_text : json -> string) (data : json)
  : HResult string :=
  hthen (getitem data "context") (fun ctx =>
  hthen (getitem ctx "time_placed") (fun time_placed =>
  hthen (getitem ctx "items") (fun items =>
  hthen (getitem ctx "eta") (fun eta =>
  hthen (getitem ctx "status") (fun status =>
  hthen (getitem data "user_input") (fun user_input =>
  HOk (newline
       +:+ "    SYSTEM DATA (Hidden from user, visible to Agent):" +:+ newline
       +:+ "    - Order placed at: " +:+ py_str container_text time_placed
       +:+ newline
       +:+ "    - Items: " +:+ py_str container_text items +:+ newline
       +:+ "    - ETA: " +:+ py_str container_text eta +:+ newline
       +:+ "    - Status: " +:+ py_str container_text status +:+ newline
       +:+ newline
       +:+ "    USER COMPLAINT/QUERY:" +:+ newline
       +:+ "    " +:+ dquote +:+ py_str container_text user_input +:+ dquote
       +:+ newline
       +:+ "    "))))))).

(** The content of the [SystemMessage] that opens every case. *)
Definition system_instruction : string :=
  newline
  +:+ "        You are ZomaBot, an automated support agent." +:+ newline
  +:+ "        Use the provided SYSTEM DATA to validate the user's claims."
  +:+ newline
  +:+ "        - If items are missing/bad, use 'process_refund'." +:+ newline
  +:+ "        - If safety/tech issue, use 'escalate_to_support_admin'."
  +:+ newline
  +:+ "        - If delivery instruction/location, use 'contact_delivery_partner'."
  +:+ newline
  +:+ "        - Otherwise, answer politely." +:+ newline
  +:+ "        ".

(** [s * n]. *)
Fixpoint str_mul (s : string) (n : nat) : string :=
  match n with
  | O => ""
  | S n' => s +:+ str_mul s n'
  end.

Definition content_of (m : Message) : string :=
  match m with
  | SystemMessage content => content
  | HumanMessage content => content
  | AIMessage content _ => content
  | ToolMessage content _ _ _ => content
  end.

(** The names [run_tests] collects: for every message that has tool calls,
    the name of each call, in order. *)
Definition tool_names (history : list Message) : list string :=
  flat_map (fun msg => map tc_name (calls_of msg)) history.

Definition action_line (names : list string) : string :=
  match names with
  | [] => "ACTION TAKEN: None (Direct Reply)"
  | _ :: _ => "ACTION TAKEN: " +:+ String.concat ", " names
  end.

(** What [run_tests] prints after a run: the action line, the response line
    and the closing rule. *)
Definition report_lines (names : list string) (bot_response : string)
  : list string :=
  [action_line names; "RESPONSE:     " +:+ bot_response;
   str_mul "=" 60 +:+ newline].

(** What [run_tests] prints for a case before it runs the agent. *)
Definition header_lines (container_text : json -> string)
    (id user_input status items : json) : list string :=
  [str_mul "=" 60;
   "TEST CASE #" +:+ py_str container_text id;
   "INPUT: " +:+ py_str container_text user_input;
   "CTX:   Status: " +:+ py_str container_text status +:+ " | Items: "
   +:+ py_str container_text items;
   str_mul "-" 20].

(** The keys [format_context_prompt] reads. *)
Definition prompt_keys : list string :=
  ["context"; "time_placed"; "items"; "eta"; "status"; "user_input"].

(** How many messages of a transcript are [AIMessage]s, and how many are
    [ToolMessage]s. *)
Fixpoint count_ai (ms : list Message) : nat :=
  match ms with
  | [] => O
  | AIMessage _ _ :: ms' => S (count_ai ms')
  | _ :: ms' => count_ai ms'
  end.

Fixpoint count_tool_messages (ms : list Message) : nat :=
  match ms with
  | [] => O
  | ToolMessage _ _ _ _ :: ms' => S (count_tool_messages ms')
  | _ :: ms' => count_tool_messages ms'
  end.

(** The harness threads what has been printed so far next to the outside
    world. *)
Record HState (World : Type) : Type := mkHState {
  printed : list string;
  outside : Env World
}.
Arguments mkHState {World} printed outside.
Arguments printed {World} h.
Arguments outside {World} h.

Definition H (World A : Type) : Type :=
  HState World -> HResult A * HState World.

Definition hret {World A} (a : A) : H World A := fun h => (HOk a, h).

Definition hbind {World A B} (m : H World A) (k : A -> H World B) : H World B :=
  fun h =>
    match m h with
    | (HOk a, h') => k a h'
    | (HRaise e, h') => (HRaise e, h')
    end.

(** [print(line)]. *)
Definition print {World} (line : string) : H World unit :=
  fun h => (HOk tt, mkHState (printed h ++ [line]) (outside h)).

(** A step that touches nothing outside. *)
Definition hpure {World A} (r : HResult A) : H World A := fun h => (r, h).

(** A step of the agent, run on the outside world. *)
Definition hagent {World A} (m : M World A) : H World A :=
  fun h =>
    match m (outside h) with
    | (Ok a, env') => (HOk a, mkHState (printed h) env')
    | (Raise e, env') => (HRaise (AgentRaised e), mkHState (printed h) env')
    end.

(** A step only adds to what has been printed. *)
Definition prints_more {World A} (m : H World A) : Prop :=
  forall h, exists more, printed (snd (m h)) = printed h ++ more.

Notation "'let!' x ':=' m 'in' k" := (hbind m (fun x => k))
  (at level 10, x name, m at level 100, k at level 200).
Notation "'say' line 'then' k" := (hbind (print line) (fun _ => k))
  (at level 10, line at level 100, k at level 200).

Section Harness.

Context {World : Type}.
Variable environ : World -> gmap string string.
Variable requests_post :
  string -> gmap string string -> World -> PostOutcome * World.
Variable llm_with_tools_invoke :
  list Message -> World -> Result (string * list ToolCall) * World.
Variable int_of_str : string -> option Z.
Variable tool_error_text : ToolCall -> exn -> string.

(** The text [str()] gives a list or an object of the fixture. *)
Variable container_text : json -> string.

(** The body of the [for] loop of [run_tests], for one case. *)
Definition run_test_case (case : json) : H World unit :=
  say str_mul "=" 60 then
  let! id := hpure (getitem case "id") in
  say "TEST CASE #" +:+ py_str container_text id then
  let! user_input := hpure (getitem case "user_input") in
  say "INPUT: " +:+ py_str container_text user_input then
  let! status := hpure (hthen (getitem case "context")
                          (fun ctx => getitem ctx "status")) in
  let! items := hpure (hthen (getitem case "context")
                         (fun ctx => getitem ctx "items")) in
  say "CTX:   Status: " +:+ py_str container_text status +:+ " | Items: "
      +:+ py_str container_text items then
  say str_mul "-" 20 then
  let! prompt := hpure (format_context_prompt container_text case) in
  let seed := [SystemMessage system_instruction; HumanMessage prompt] in
  let! final_state :=
    hagent (run_case environ requests_post llm_with_tools_invoke int_of_str
              tool_error_text seed) in
  let history := messages final_state in
  let names := tool_names history in
  let! bot_response :=
    hpure (match last history with
           | Some msg => HOk (content_of msg)
           | None => HRaise (AgentRaised IndexError)
           end) in
  say action_line names then
  say "RESPONSE:     " +:+ bot_response then
  print (str_mul "=" 60 +:+ newline).

(** [for i, case in enumerate(test_cases): ...]. *)
Fixpoint for_cases (test_cases : list json) : H World unit :=
  match test_cases with
  | [] => hret tt
  | case :: rest => let! _ := run_test_case case in for_cases rest
  end.

(** [run_tests()], given the parsed fixture file. *)
Definition run_tests (test_cases : list json) : H World unit :=
  say "Loaded " +:+ pretty (length test_cases) +:+ " test cases." +:+ newline
  then for_cases test_cases.

End Harness.

(** ** A scripted outside world

    A model that replays a script of replies and then repeats a fallback
    reply, a fixed environment, and a transport with a fixed outcome. *)

Module Stub.

Record World : Type := mkWorld {
  script : list (string * list ToolCall);
  fallback : string * list ToolCall;
  vars : gmap string string;
  transport : PostOutcome
}.

Definition environ (w : World) : gmap string string := vars w.

Definition requests_post (url : string) (data : gmap string string) (w : World)
  : PostOutcome * World := (transport w, w).

Definition llm (seen : list Message) (w : World)
  : Result (string * list ToolCall) * World :=
  match script w with
  | reply :: rest => (Ok reply, mkWorld rest (fallback w) (vars w) (transport w))
  | [] => (Ok (fallback w), w)
  end.

(** A model that asks for a refund on every call, whatever it is shown. *)
Definition llm_always (seen : list Message) (w : World)
  : Result (string * list ToolCall) * World :=
  (Ok ("", [mkToolCall "process_refund"
              (<["item_name" := VStr "Chicken Pizza"]>
                 (<["reason" := VStr "Burnt"]> ∅)) "call_1"]), w).

(** A model endpoint that is down. *)
Definition llm_down (seen : list Message) (w : World)
  : Result (string * list ToolCall) * World :=
  (Raise (ModelError "503 Service Unavailable"), w).

Definition int_of_str (s : string) : option Z := None.

Definition tool_error_text (call : ToolCall) (e : exn) : string :=
  "Error: the arguments do not fit the tool.".

Definition refund_call (pct : Z) : ToolCall :=
  mkToolCall "process_refund"
    (<["item_name" := VStr "Chicken Pizza"]>
       (<["reason" := VStr "Burnt"]>
          (<["refund_amount_percentage" := VInt pct]> ∅)))
    "call_1".

Definition escalate_call : ToolCall :=
  mkToolCall "escalate_to_support_admin"
    (<["issue_summary" := VStr "App crash"]> (<["urgency" := VStr "high"]> ∅))
    "call_2".

Definition plain : string * list ToolCall := ("Happy to help.", []).

Definition no_secrets : gmap string string := ∅.

Definition secrets : gmap string string :=
  <["TELEGRAM_BOT_TOKEN" := "T"]> (<["TELEGRAM_CHAT_ID" := "C"]> ∅).

(** The model answers at once. *)
Definition w_plain : World := mkWorld [] plain no_secrets (Response 200).

(** The model asks for one refund, then answers. *)
Definition w_one_tool : World :=
  mkWorld [("", [refund_call 100])] plain no_secrets (Response 200).


(** Both secrets set; the messaging endpoint answers 401. *)
Definition w_unauthorized : World := mkWorld [] plain secrets (Response 401).

(** Both secrets set; the connection fails. *)
Definition w_offline : World :=
  mkWorld [] plain secrets (RequestException "Connection refused").

(** Only the token is set. *)
Definition w_token_only : World :=
  mkWorld [] plain (<["TELEGRAM_BOT_TOKEN" := "T"]> ∅) (Response 200).

Definition env0 (w : World) : Env World := mkEnv w [].

Definition seed : list Message :=
  [SystemMessage "You are ZomaBot, an automated support agent.";
   HumanMessage "My pizza arrived burnt."].

Definition agent_app_invoke_down :=
  agent_app_invoke environ requests_post llm_down int_of_str tool_error_text.
Definition run_case_always :=
  run_case environ requests_post llm_always int_of_str tool_error_text.
Definition agent_app_invoke_always :=
  agent_app_invoke environ requests_post llm_always int_of_str tool_error_text.
Definition escalate := escalate_to_support_admin environ requests_post.
Definition invoke_tool := invoke_tool environ requests_post int_of_str.
Definition run_one := run_one environ requests_post int_of_str tool_error_text.
Definition pregel_loop :=
  pregel_loop environ requests_post llm int_of_str tool_error_text.
Definition agent_app_invoke :=
  agent_app_invoke environ requests_post llm int_of_str tool_error_text.

Definition run_tool_node :=
  tool_node environ requests_post int_of_str tool_error_text.

(** A fixture: one well-formed case and one without ["context"]. *)
Definition container_text (v : json) : string := "['Chicken Pizza']".

Definition case_context : json :=
  JObj (<["time_placed" := JStr "19:05"]>
          (<["items" := JList [JStr "Chicken Pizza"]]>
             (<["eta" := JStr "19:45"]>
                (<["status" := JStr "Delivered"]> ∅)))).

Definition case_1 : json :=
  JObj (<["id" := JInt 1]>
          (<["user_input" := JStr "My pizza arrived burnt."]>
             (<["context" := case_context]> ∅))).

Definition case_without_context : json :=
  JObj (<["id" := JInt 2]> (<["user_input" := JStr "Where is my order?"]> ∅)).

Definition h0 (w : World) : HState World := mkHState [] (env0 w).

(** The prompt of [case_1] and the transcript a run of it starts from. *)
Definition prompt_1 : string :=
  Eval vm_compute in
    match format_context_prompt container_text case_1 with
    | HOk prompt => prompt
    | HRaise _ => ""
    end.

Definition seed_1 : list Message :=
  [SystemMessage system_instruction; HumanMessage prompt_1].

(** The token is set to the empty string. *)
Definition w_empty_token : World :=
  mkWorld [] plain
    (<["TELEGRAM_BOT_TOKEN" := ""]> (<["TELEGRAM_CHAT_ID" := "C"]> ∅))
    (Response 200).

(** The model asks for a tool that is not registered, then answers. *)
Definition cancel_call : ToolCall := mkToolCall "cancel_order" ∅ "call_7".

Definition w_unknown_tool : World :=
  mkWorld [("", [cancel_call])] plain no_secrets (Response 200).

Definition run_tests_always :=
  run_tests environ requests_post llm_always int_of_str tool_error_text
    container_text.
Definition test_case :=
  run_test_case environ requests_post llm int_of_str tool_error_text
    container_text.
Definition for_each_case :=
  for_cases environ requests_post llm int_of_str tool_error_text container_text.
Definition tests :=
  run_tests environ requests_post llm int_of_str tool_error_text container_text.

End Stub.

(** * Properties *)

(** ** Text *)

Lemma string_app_assoc (s1 s2 s3 : string) :
  s1 +:+ s2 +:+ s3 = (s1 +:+ s2) +:+ s3.
Proof.
  induction s1 as [|a s1 IH]; [reflexivity|].
  change (String a (s1 +:+ s2 +:+ s3) = String a ((s1 +:+ s2) +:+ s3)).
  by rewrite IH.
Qed.

Lemma occurs_in_here (needle after : string) : occurs_in needle (needle +:+ after).
Proof. exists "", after. reflexivity. Qed.

Lemma occurs_in_later (needle first rest : string) :
  occurs_in needle rest -> occurs_in needle (first +:+ rest).
Proof.
  intros (before & after & ->). exists (first +:+ before), after.
  by rewrite string_app_assoc.
Qed.

Example process_refund_pizza :
  process_refund "Chicken Pizza" "Burnt" 100 =
  "SUCCESS: Refund processed for 'Chicken Pizza'. Reason: Burnt. Amount: 100% credited to wallet.".
Proof. reflexivity. Qed.

Example process_refund_negative :
  process_refund "Tea" "Cold" (-5) =
  "SUCCESS: Refund processed for 'Tea'. Reason: Cold. Amount: -5% credited to wallet.".
Proof. reflexivity. Qed.

Example contact_delivery_partner_gate :
  contact_delivery_partner "Gate 2" =
  "RIDER_ALERT: Message sent to rider -> 'Gate 2'. Rider will call customer shortly.".
Proof. reflexivity. Qed.

(** ** Routing *)

Lemma should_continue_last (state : AgentState) (content : string)
    (tool_calls : list ToolCall) :
  last (messages state) = Some (AIMessage content tool_calls) ->
  should_continue state =
    Ok (match tool_calls with [] => route_END | _ :: _ => route_tools end).
Proof.
  intros Hlast. unfold should_continue. rewrite Hlast.
  by destruct tool_calls.
Qed.

(** C10.  The route chosen after a model turn is a function of the last
    message's [tool_calls] alone: two states whose last messages carry the
    same tool calls get the same route whatever their contents, and a last
    message with at least one tool call, with or without text, is routed to
    the tool node and not to [END]. *)
Theorem should_continue_ignores_content
    (s1 s2 : AgentState) (content1 content2 : string)
    (tool_calls : list ToolCall) :
  last (messages s1) = Some (AIMessage content1 tool_calls) ->
  last (messages s2) = Some (AIMessage content2 tool_calls) ->
  should_continue s1 = should_continue s2 /\
  (tool_calls <> [] ->
   should_continue s1 = Ok route_tools /\
   next_of agent s1 = Ok (Goto tools_node)).
Proof.
  intros H1 H2.
  rewrite (should_continue_last _ _ _ H1), (should_continue_last _ _ _ H2).
  split; [reflexivity|].
  intros Hne. unfold next_of. rewrite (should_continue_last _ _ _ H1).
  destruct tool_calls; [congruence|]. split; reflexivity.
Qed.

Lemma should_continue_ignores_content_witness :
  let s1 := mkState (Stub.seed ++ [AIMessage "" [Stub.refund_call 100]]) in
  let s2 := mkState [AIMessage "I will refund you." [Stub.refund_call 100]] in
  should_continue s1 = should_continue s2 /\
  ([Stub.refund_call 100] <> [] ->
   should_continue s1 = Ok route_tools /\
   next_of agent s1 = Ok (Goto tools_node)).
Proof.
  intros s1 s2.
  apply (should_continue_ignores_content s1 s2 "" "I will refund you."
           [Stub.refund_call 100]); reflexivity.
Defined.

(** ** The tools *)

Section ToolFacts.

Context {World : Type}.
Variable environ : World -> gmap string string.
Variable requests_post :
  string -> gmap string string -> World -> PostOutcome * World.
Variable int_of_str : string -> option Z.
Variable tool_error_text : ToolCall -> exn -> string.

Local Abbreviation escalate := (escalate_to_support_admin environ requests_post).
Local Abbreviation call_tool := (invoke_tool environ requests_post int_of_str).
Local Abbreviation answer :=
  (run_one environ requests_post int_of_str tool_error_text).

(** C9.  [process_refund] returns its success text for every item, reason and
    percentage, and the text contains the item name, the reason and the
    percentage (in decimal) as they were given; called through its schema it
    has no effect on the outside world, and a call that leaves
    [refund_amount_percentage] out is a call with 100. *)
Theorem process_refund_embeds_arguments
    (item_name reason : string) (pct : Z) (env : Env World) :
  let text := process_refund item_name reason pct in
  occurs_in "SUCCESS" text /\
  occurs_in item_name text /\
  occurs_in reason text /\
  occurs_in (pretty pct) text /\
  call_tool tool_process_refund
    (<["item_name" := VStr item_name]>
       (<["reason" := VStr reason]>
          (<["refund_amount_percentage" := VInt pct]> ∅))) env
  = (Ok text, env) /\
  call_tool tool_process_refund
    (<["item_name" := VStr item_name]> (<["reason" := VStr reason]> ∅)) env
  = (Ok (process_refund item_name reason 100), env).
Proof.
  cbv zeta. unfold process_refund.
  split; [apply (occurs_in_here "SUCCESS")|].
  split; [apply occurs_in_later, occurs_in_here|].
  split; [do 3 apply occurs_in_later; apply occurs_in_here|].
  split; [do 5 apply occurs_in_later; apply occurs_in_here|].
  split; unfold invoke_tool, arg_str, arg_int; by simplify_map_eq.
Qed.

(** C8.  When the token or the chat id is missing from the environment,
    [escalate_to_support_admin] returns the simulation text and leaves the
    world and the trace as they were: no request is sent. *)
Theorem escalate_simulation_without_secret
    (issue_summary urgency : string) (env : Env World) :
  environ (world env) !! "TELEGRAM_BOT_TOKEN" = None \/
  environ (world env) !! "TELEGRAM_CHAT_ID" = None ->
  escalate issue_summary urgency env = (Ok ESCALATED_SIMULATION, env) /\
  count_events is_post (trace (snd (escalate issue_summary urgency env))) =
  count_events is_post (trace env).
Proof.
  intros Habsent.
  assert (escalate issue_summary urgency env = (Ok ESCALATED_SIMULATION, env))
    as Heq.
  { unfold escalate_to_support_admin, bind, os_getenv, ret.
    destruct Habsent as [-> | ->]; [reflexivity|].
    by destruct (environ (world env) !! "TELEGRAM_BOT_TOKEN"). }
  by rewrite Heq.
Qed.

(** With both secrets set the request is sent once, and what the tool
    returns depends only on whether [requests.post] raised. *)
Lemma escalate_with_secrets
    (issue_summary urgency token chat_id : string) (env : Env World) :
  environ (world env) !! "TELEGRAM_BOT_TOKEN" = Some token ->
  environ (world env) !! "TELEGRAM_CHAT_ID" = Some chat_id ->
  token <> "" -> chat_id <> "" ->
  let url := telegram_url token in
  let data :=
    <["chat_id" := chat_id]>
      (<["text" := alert_text issue_summary urgency]> (∅ : gmap string string)) in
  let env' :=
    mkEnv (snd (requests_post url data (world env)))
          (trace env ++ [EvPost url data]) in
  escalate issue_summary urgency env =
  (Ok (match fst (requests_post url data (world env)) with
       | Response _ => ESCALATED_OK
       | RequestException str_e => escalation_failed str_e
       end), env').
Proof.
  intros Htok Hchat Hne1 Hne2. cbv zeta.
  unfold escalate_to_support_admin, bind, os_getenv, ret, post, truthy.
  rewrite Htok, Hchat.
  apply String.eqb_neq in Hne1, Hne2. rewrite Hne1, Hne2. cbn [negb andb].
  destruct (requests_post _ _ _) as [[code|str_e] w']; reflexivity.
Qed.

Lemma escalate_total (issue_summary urgency : string) (env : Env World) :
  exists text env', escalate issue_summary urgency env = (Ok text, env').
Proof.
  unfold escalate_to_support_admin, bind, os_getenv, ret, post.
  destruct (environ (world env) !! "TELEGRAM_BOT_TOKEN") as [t|]; [|by eauto].
  destruct (environ (world env) !! "TELEGRAM_CHAT_ID") as [c|]; [|by eauto].
  destruct (truthy (Some t) && truthy (Some c)); [|by eauto].
  destruct (requests_post _ _ _) as [[code|str_e] w']; by eauto.
Qed.

(** A tool runs exactly when the schema takes the arguments; otherwise the
    call raises before anything happens. *)
Lemma invoke_tool_schema (t : Tool) (args : gmap string value) (env : Env World) :
  if schema_accepts int_of_str t args
  then exists text env', call_tool t args env = (Ok text, env')
  else call_tool t args env = (Raise ValidationError, env).
Proof.
  destruct t; unfold schema_accepts, invoke_tool, arg_str, arg_int;
    cbn [args_schema forallb]; unfold param_ok;
    cbn [p_name p_type p_required];
    repeat match goal with
      | |- context [args !! ?k] => destruct (args !! k) as [[?|?]|]
      | |- context [int_of_str ?s] => destruct (int_of_str s)
      end;
    cbn [negb andb]; try reflexivity; try (by eauto);
    apply escalate_total.
Qed.

Lemma run_one_unknown (call : ToolCall) (env : Env World) :
  tools_by_name (tc_name call) = None ->
  answer call env =
  (Ok (ToolMessage (invalid_tool_name_error (tc_name call)) (tc_name call)
         (tc_id call) status_error),
   mkEnv (world env) (trace env ++ [EvTool call])).
Proof. intros Hnone. unfold run_one, bind, emit, ret. by rewrite Hnone. Qed.

Lemma run_one_rejected (call : ToolCall) (t : Tool) (env : Env World) :
  tools_by_name (tc_name call) = Some t ->
  schema_accepts int_of_str t (tc_args call) = false ->
  answer call env =
  (Ok (ToolMessage (tool_error_text call ValidationError) (tc_name call)
         (tc_id call) status_error),
   mkEnv (world env) (trace env ++ [EvTool call])).
Proof.
  intros Hsome Hrej. unfold run_one, bind, emit. rewrite Hsome.
  pose proof (invoke_tool_schema t (tc_args call)
                (mkEnv (world env) (trace env ++ [EvTool call]))) as Hs.
  rewrite Hrej in Hs. by rewrite Hs.
Qed.

(** [run_one] answers every call with a tool message that carries the call's
    name and id; it never raises. *)
Lemma run_one_answers (call : ToolCall) (env : Env World) :
  exists content env',
    answer call env =
    (Ok (ToolMessage content (tc_name call) (tc_id call)
           (expected_status int_of_str call)), env').
Proof.
  unfold expected_status.
  destruct (tools_by_name (tc_name call)) as [t|] eqn:Hname.
  - destruct (schema_accepts int_of_str t (tc_args call)) eqn:Hacc.
    + pose proof (invoke_tool_schema t (tc_args call)
                    (mkEnv (world env) (trace env ++ [EvTool call]))) as Hs.
      rewrite Hacc in Hs. destruct Hs as (text & env' & Hs).
      exists text, env'. unfold run_one, bind, emit. by rewrite Hname, Hs.
    + eexists _, _. by apply (run_one_rejected call t).
  - eexists _, _. by apply run_one_unknown.
Qed.

(** C6 (amended).  What ToolNode returns for a call is a tool message with the
    call's name and id, and its status is [error] exactly when the name is not
    registered or the schema rejects the arguments (a required parameter is
    missing or a value has the wrong type): the failure is handed back as a
    result, not raised and not dropped.  A rejected call raises inside the
    tool before anything runs.  The schema declares no range: every integer
    is taken for [refund_amount_percentage] and the refund goes through. *)
Theorem tool_call_errors_are_reported (call : ToolCall) (env : Env World) :
  let env1 := mkEnv (world env) (trace env ++ [EvTool call]) in
  (exists content env',
     answer call env =
     (Ok (ToolMessage content (tc_name call) (tc_id call)
            (expected_status int_of_str call)), env')) /\
  (tools_by_name (tc_name call) = None ->
   answer call env =
   (Ok (ToolMessage (invalid_tool_name_error (tc_name call)) (tc_name call)
          (tc_id call) status_error), env1)) /\
  (forall t,
     tools_by_name (tc_name call) = Some t ->
     schema_accepts int_of_str t (tc_args call) = false ->
     call_tool t (tc_args call) env1 = (Raise ValidationError, env1) /\
     answer call env =
     (Ok (ToolMessage (tool_error_text call ValidationError) (tc_name call)
            (tc_id call) status_error), env1)) /\
  (forall (item_name reason : string) (pct : Z),
     let args :=
       <["item_name" := VStr item_name]>
         (<["reason" := VStr reason]>
            (<["refund_amount_percentage" := VInt pct]> ∅)) in
     schema_accepts int_of_str tool_process_refund args = true /\
     call_tool tool_process_refund args env =
     (Ok (process_refund item_name reason pct), env)).
Proof.
  cbv zeta. split; [apply run_one_answers|].
  split; [apply run_one_unknown|]. split.
  - intros t Hsome Hrej. split; [|by apply (run_one_rejected call t)].
    pose proof (invoke_tool_schema t (tc_args call)
                  (mkEnv (world env) (trace env ++ [EvTool call]))) as Hs.
    by rewrite Hrej in Hs.
  - intros item_name reason pct. split.
    + unfold schema_accepts. cbn [args_schema forallb]. unfold param_ok.
      cbn [p_name p_type p_required]. by simplify_map_eq.
    + unfold invoke_tool, arg_str, arg_int. by simplify_map_eq.
Qed.

End ToolFacts.

(** ** The tools on the scripted world *)

Lemma escalate_simulation_without_secret_witness :
  Stub.escalate "App crash" "high" (Stub.env0 Stub.w_token_only) =
  (Ok ESCALATED_SIMULATION, Stub.env0 Stub.w_token_only) /\
  count_events is_post
    (trace (snd (Stub.escalate "App crash" "high" (Stub.env0 Stub.w_token_only)))) =
  count_events is_post (trace (Stub.env0 Stub.w_token_only)).
Proof.
  apply (escalate_simulation_without_secret Stub.environ Stub.requests_post
           "App crash" "high" (Stub.env0 Stub.w_token_only)).
  right. vm_compute. reflexivity.
Defined.

(** C7 at the failing input.  Both secrets are set and the messaging endpoint
    answers the request with status 401: the tool sends the request, does not
    look at the status, and returns the text that says the admin has been
    notified. *)
Lemma escalate_reports_success_on_http_401 :
  let run := Stub.escalate "App crash" "high" (Stub.env0 Stub.w_unauthorized) in
  Stub.transport Stub.w_unauthorized = Response 401 /\
  fst run = Ok "ESCALATED: Admin has been notified via Telegram channel." /\
  count_events is_post (trace (snd run)) = 1%nat.
Proof. vm_compute. repeat split; reflexivity. Qed.

Example escalation_answer_on_http_401 :
  fst (Stub.run_one Stub.escalate_call (Stub.env0 Stub.w_unauthorized)) =
  Ok (ToolMessage ESCALATED_OK "escalate_to_support_admin" "call_2"
        status_success).
Proof. vm_compute. reflexivity. Qed.

(** The other half of C7 holds: when [requests.post] raises, the tool returns
    the failure text with the error in it, as a value. *)
Lemma escalate_failure_text_on_exception :
  fst (Stub.escalate "App crash" "high" (Stub.env0 Stub.w_offline)) =
  Ok "ESCALATION FAILED: Connection refused".
Proof. vm_compute. reflexivity. Qed.

(** C6 as stated fails: 150 is outside 0-100, yet the call is not rejected;
    the refund runs and is answered with status [success]. *)
Lemma refund_out_of_range_accepted :
  ~ (0 <= 150 <= 100) /\
  fst (Stub.invoke_tool tool_process_refund (tc_args (Stub.refund_call 150))
         (Stub.env0 Stub.w_plain)) <> Raise ValidationError /\
  fst (Stub.run_one (Stub.refund_call 150) (Stub.env0 Stub.w_plain)) =
  Ok (ToolMessage
        "SUCCESS: Refund processed for 'Chicken Pizza'. Reason: Burnt. Amount: 150% credited to wallet."
        "process_refund" "call_1" status_success).
Proof.
  split; [lia|]. split; [|vm_compute; reflexivity].
  vm_compute. discriminate.
Qed.

Lemma tool_call_errors_are_reported_witness :
  let call := mkToolCall "refund_order" ∅ "call_9" in
  Stub.run_one call (Stub.env0 Stub.w_plain) =
  (Ok (ToolMessage (invalid_tool_name_error "refund_order") "refund_order"
         "call_9" status_error),
   mkEnv Stub.w_plain [EvTool call]).
Proof.
  intros call.
  destruct (tool_call_errors_are_reported Stub.environ Stub.requests_post
              Stub.int_of_str Stub.tool_error_text call
              (Stub.env0 Stub.w_plain)) as (_ & Hunknown & _).
  apply Hunknown. reflexivity.
Defined.

Example missing_argument_is_an_error :
  fst (Stub.run_one
         (mkToolCall "process_refund" (<["item_name" := VStr "Tea"]> ∅) "call_3")
         (Stub.env0 Stub.w_plain)) =
  Ok (ToolMessage "Error: the arguments do not fit the tool." "process_refund"
        "call_3" status_error).
Proof. vm_compute. reflexivity. Qed.

Example wrong_type_is_an_error :
  fst (Stub.run_one
         (mkToolCall "contact_delivery_partner" (<["message" := VInt 7]> ∅)
            "call_4")
         (Stub.env0 Stub.w_plain)) =
  Ok (ToolMessage "Error: the arguments do not fit the tool."
        "contact_delivery_partner" "call_4" status_error).
Proof. vm_compute. reflexivity. Qed.

(** ** The agent loop *)

Lemma count_events_app (p : Event -> bool) (tr1 tr2 : list Event) :
  count_events p (tr1 ++ tr2) = (count_events p tr1 + count_events p tr2)%nat.
Proof. induction tr1 as [|e tr1 IH]; cbn; [reflexivity|]. rewrite IH. lia. Qed.

Lemma count_events_none (p : Event -> bool) (tr : list Event) :
  Forall (fun e => p e = false) tr -> count_events p tr = O.
Proof.
  induction 1 as [|e tr He _ IH]; [reflexivity|]. cbn. by rewrite He, IH.
Qed.

(** ** Referential integrity *)

Lemma scan_app (ms1 ms2 : list Message) (pending : list ToolCall) :
  scan pending (ms1 ++ ms2) =
  match scan pending ms1 with
  | Some pending' => scan pending' ms2
  | None => None
  end.
Proof.
  revert pending. induction ms1 as [|m ms1 IH]; intros pending; [reflexivity|].
  cbn [app scan].
  destruct pending as [|call pending'], m; try reflexivity; try apply IH.
  destruct (String.eqb _ _); [apply IH|reflexivity].
Qed.

Lemma answered_scan (ms : list Message) :
  answered ms = true <-> scan [] ms = Some [].
Proof.
  unfold answered. destruct (scan [] ms) as [[|? ?]|]; split; congruence.
Qed.

(** A plain answer keeps an answered transcript answered. *)
Lemma answered_plain (ms : list Message) (content : string) :
  answered ms = true -> answered (ms ++ [AIMessage content []]) = true.
Proof.
  rewrite !answered_scan. intros Hms. by rewrite scan_app, Hms.
Qed.

(** An [AIMessage] followed by the answers to its calls keeps an answered
    transcript answered. *)
Lemma answered_turn (ms msgs : list Message) (content : string)
    (tool_calls : list ToolCall) :
  answered ms = true ->
  (forall rest, scan tool_calls (msgs ++ rest) = scan [] rest) ->
  answered ((ms ++ [AIMessage content tool_calls]) ++ msgs) = true.
Proof.
  rewrite !answered_scan. intros Hms Hmsgs.
  rewrite <- app_assoc, scan_app, Hms. cbn [app scan].
  rewrite <- (app_nil_r msgs). by rewrite Hmsgs.
Qed.

(** For every id, the results and what is still pending balance the
    invocations. *)
Lemma scan_balance (id : string) (ms : list Message)
    (pending pending' : list ToolCall) :
  scan pending ms = Some pending' ->
  (count_results id ms + occurrences id pending')%nat =
  (occurrences id pending + count_invocations id ms)%nat.
Proof.
  revert pending. induction ms as [|m ms IH]; intros pending Hscan.
  - cbn in Hscan. injection Hscan as ->. cbn. lia.
  - cbn [scan] in Hscan. destruct pending as [|call pending1].
    + destruct m as [c|c|c calls|c n i s]; try discriminate;
        apply IH in Hscan; cbn in *; lia.
    + destruct m as [c|c|c calls|c n i s]; try discriminate.
      destruct (String.eqb i (tc_id call)) eqn:Hid; [|discriminate].
      apply String.eqb_eq in Hid. subst i.
      apply IH in Hscan. cbn in *. lia.
Qed.

(** Every tool message answers a call that is pending or was requested by
    an earlier [AIMessage]. *)
Lemma scan_result_has_invocation (ms : list Message)
    (pending pending' : list ToolCall) :
  scan pending ms = Some pending' ->
  forall (j : nat) (c n id : string) (s : Status),
    ms !! j = Some (ToolMessage c n id s) ->
    (exists call, call ∈ pending /\ tc_id call = id) \/
    (exists (i : nat) content calls call,
       (i < j)%nat /\ ms !! i = Some (AIMessage content calls) /\
       call ∈ calls /\ tc_id call = id).
Proof.
  revert pending. induction ms as [|m ms IH]; intros pending Hscan j c n id s Hj;
    [discriminate|].
  cbn [scan] in Hscan.
  assert (forall p, scan p ms = Some pending' ->
            forall j', j = S j' ->
            (exists call, call ∈ p /\ tc_id call = id) \/
            (exists (i : nat) content calls call,
               (i < j)%nat /\ (m :: ms) !! i = Some (AIMessage content calls) /\
               call ∈ calls /\ tc_id call = id)) as Hshift.
  { intros p Hp j' ->. cbn in Hj.
    destruct (IH p Hp j' c n id s Hj) as [Hl|(i & content & calls & call & ? & ? & ? & ?)];
      [by left|].
    right. exists (S i), content, calls, call. repeat split; [lia|done..]. }
  destruct pending as [|call0 pending1].
  - destruct m as [c0|c0|c0 calls0|c0 n0 i0 s0]; try discriminate;
      (destruct j as [|j']; [discriminate|]).
    + destruct (Hshift [] Hscan j' eq_refl) as [(call & Hin & _)|Hr];
        [by apply elem_of_nil in Hin|by right].
    + destruct (Hshift [] Hscan j' eq_refl) as [(call & Hin & _)|Hr];
        [by apply elem_of_nil in Hin|by right].
    + destruct (Hshift calls0 Hscan j' eq_refl) as [(call & Hin & Hid)|Hr];
        [|by right].
      right. exists O, c0, calls0, call. repeat split; [lia|done..].
  - destruct m as [c0|c0|c0 calls0|c0 n0 i0 s0]; try discriminate.
    destruct (String.eqb i0 (tc_id call0)) eqn:Hid; [|discriminate].
    apply String.eqb_eq in Hid. subst i0.
    destruct j as [|j'].
    + cbn in Hj. injection Hj as -> -> <- ->. left. exists call0.
      split; [apply list_elem_of_here|reflexivity].
    + destruct (Hshift pending1 Hscan j' eq_refl) as [(call & Hin & Hid)|Hr];
        [|by right].
      left. exists call. split; [by apply list_elem_of_further|done].
Qed.

(** When nothing is pending at the end, every pending call and every call
    of an [AIMessage] is answered by a later tool message with its id. *)
Lemma scan_invocation_answered (ms : list Message) (pending : list ToolCall) :
  scan pending ms = Some [] ->
  (forall call, call ∈ pending ->
     exists (j : nat) c n s, ms !! j = Some (ToolMessage c n (tc_id call) s)) /\
  (forall (i : nat) content calls call,
     ms !! i = Some (AIMessage content calls) -> call ∈ calls ->
     exists (j : nat) c n s,
       (i < j)%nat /\ ms !! j = Some (ToolMessage c n (tc_id call) s)).
Proof.
  revert pending. induction ms as [|m ms IH]; intros pending Hscan.
  - cbn in Hscan. injection Hscan as ->. split.
    + intros call Hin. by apply elem_of_nil in Hin.
    + intros i content calls call Hi. discriminate.
  - cbn [scan] in Hscan.
    assert (forall p, scan p ms = Some [] ->
              forall (i : nat) content calls call,
                (m :: ms) !! S i = Some (AIMessage content calls) ->
                call ∈ calls ->
                exists (j : nat) c n s,
                  (S i < j)%nat /\
                  (m :: ms) !! j = Some (ToolMessage c n (tc_id call) s))
      as Hshift.
    { intros p Hp i content calls call Hi Hin. cbn in Hi.
      destruct (IH p Hp) as [_ Hlater].
      destruct (Hlater i content calls call Hi Hin) as (j & c & n & s & ? & ?).
      exists (S j), c, n, s. split; [lia|done]. }
    destruct pending as [|call0 pending1].
    + split; [intros call Hin; by apply elem_of_nil in Hin|].
      destruct m as [c0|c0|c0 calls0|c0 n0 i0 s0]; try discriminate;
        intros [|i] content calls call Hi Hin; try discriminate;
        try (by eapply Hshift).
      cbn in Hi. injection Hi as -> ->.
      destruct (IH calls Hscan) as [Hpend _].
      destruct (Hpend call Hin) as (j & c & n & s & Hj).
      exists (S j), c, n, s. split; [lia|done].
    + destruct m as [c0|c0|c0 calls0|c0 n0 i0 s0]; try discriminate.
      destruct (String.eqb i0 (tc_id call0)) eqn:Hid; [|discriminate].
      apply String.eqb_eq in Hid. subst i0. split.
      * intros call Hin. apply elem_of_cons in Hin as [->|Hin].
        -- by exists O, c0, n0, s0.
        -- destruct (IH pending1 Hscan) as [Hpend _].
           destruct (Hpend call Hin) as (j & c & n & s & Hj).
           by exists (S j), c, n, s.
      * intros [|i] content calls call Hi Hin; [discriminate|].
        by eapply Hshift.
Qed.

Section LoopFacts.

Context {World : Type}.
Variable environ : World -> gmap string string.
Variable requests_post :
  string -> gmap string string -> World -> PostOutcome * World.
Variable llm_with_tools_invoke :
  list Message -> World -> Result (string * list ToolCall) * World.
Variable int_of_str : string -> option Z.
Variable tool_error_text : ToolCall -> exn -> string.

Local Abbreviation escalate := (escalate_to_support_admin environ requests_post).
Local Abbreviation call_tool := (invoke_tool environ requests_post int_of_str).
Local Abbreviation answer :=
  (run_one environ requests_post int_of_str tool_error_text).
Local Abbreviation loop :=
  (pregel_loop environ requests_post llm_with_tools_invoke int_of_str
     tool_error_text).
Local Abbreviation invoke :=
  (agent_app_invoke environ requests_post llm_with_tools_invoke int_of_str
     tool_error_text).

(** *** What a tool turn adds to the trace *)

Lemma escalate_trace (issue_summary urgency : string) (env : Env World) :
  exists text env' posts,
    escalate issue_summary urgency env = (Ok text, env') /\
    trace env' = trace env ++ posts /\ only_posts posts.
Proof.
  unfold escalate_to_support_admin, bind, os_getenv, ret, post.
  assert (trace env = trace env ++ [] /\ only_posts []) as [Hnil Hposts]
    by (by rewrite app_nil_r; split; [|constructor]).
  destruct (environ (world env) !! "TELEGRAM_BOT_TOKEN") as [t|];
    [|by eauto 6].
  destruct (environ (world env) !! "TELEGRAM_CHAT_ID") as [c|]; [|by eauto 6].
  destruct (truthy (Some t) && truthy (Some c)); [|by eauto 6].
  destruct (requests_post _ _ _) as [[code|str_e] w'];
    eexists _, _, [_]; (split; [reflexivity|]);
    (split; [reflexivity|]); by repeat constructor.
Qed.

Lemma invoke_tool_trace (t : Tool) (args : gmap string value) (env : Env World) :
  exists r env' posts,
    call_tool t args env = (r, env') /\
    trace env' = trace env ++ posts /\ only_posts posts.
Proof.
  assert (trace env = trace env ++ [] /\ only_posts []) as [Hnil Hposts]
    by (by rewrite app_nil_r; split; [|constructor]).
  destruct t; unfold invoke_tool;
    repeat match goal with
      | |- context [arg_str ?a ?k] => destruct (arg_str a k)
      | |- context [arg_int ?f ?a ?k ?d] => destruct (arg_int f a k d)
      end; unfold ret, raise; try (by eauto 6).
  destruct (escalate_trace s s0 env) as (text & env' & posts & -> & ? & ?).
  by eauto 6.
Qed.

Lemma run_one_trace (call : ToolCall) (env : Env World) :
  exists content status env' posts,
    answer call env =
    (Ok (ToolMessage content (tc_name call) (tc_id call) status), env') /\
    trace env' = trace env ++ EvTool call :: posts /\ only_posts posts.
Proof.
  unfold run_one, bind, emit.
  destruct (tools_by_name (tc_name call)) as [t|].
  - destruct (invoke_tool_trace t (tc_args call)
                (mkEnv (world env) (trace env ++ [EvTool call])))
      as (r & env' & posts & -> & Htr & Hposts).
    cbn [trace] in Htr. rewrite <- app_assoc in Htr. cbn [app] in Htr.
    destruct r; by eauto 8.
  - eexists _, _, _, []. unfold ret. split; [reflexivity|].
    split; [reflexivity|constructor].
Qed.

(** One tool message per call, in the order of the calls, each with the
    id of its call; the turn adds one [EvTool] per call, the first of them
    first, and no model call. *)
Lemma mapM_run_one (calls : list ToolCall) (env : Env World) :
  exists msgs env' new,
    mapM answer calls env = (Ok msgs, env') /\
    trace env' = trace env ++ new /\
    Forall (fun e => is_model e = false) new /\
    count_events is_tool new = length calls /\
    length msgs = length calls /\
    head new = EvTool <$> head calls /\
    forall rest, scan calls (msgs ++ rest) = scan [] rest.
Proof.
  revert env. induction calls as [|call calls IH]; intros env.
  - exists [], env, []. cbn. rewrite app_nil_r. repeat split; constructor.
  - destruct (run_one_trace call env)
      as (content & status & env1 & posts & Hone & Htr1 & Hposts).
    destruct (IH env1) as (msgs & env2 & new & Hrest & Htr2 & Hnm & Hct & Hlen
                           & _ & Hscan).
    exists (ToolMessage content (tc_name call) (tc_id call) status :: msgs),
      env2, (EvTool call :: posts ++ new).
    split; [cbn [mapM]; unfold bind; by rewrite Hone, Hrest|].
    split; [rewrite Htr2, Htr1, <- app_assoc; reflexivity|].
    split.
    { constructor; [reflexivity|]. apply Forall_app. split; [|exact Hnm].
      eapply Forall_impl; [exact Hposts|]. by intros [] ?. }
    split.
    { change (EvTool call :: posts ++ new) with ([EvTool call] ++ posts ++ new).
      rewrite !count_events_app, Hct.
      rewrite (count_events_none is_tool posts); [reflexivity|].
      eapply Forall_impl; [exact Hposts|]. by intros [] ?. }
    split; [cbn; by rewrite Hlen|].
    split; [reflexivity|].
    intros rest. cbn [app scan]. rewrite String.eqb_refl. apply Hscan.
Qed.

(** *** One super-step at a time *)

Lemma loop_out_of_steps (input : list Message) (next : Target)
    (state : AgentState) (env : Env World) :
  loop input O next state env = (Raise GraphRecursionError, env).
Proof. reflexivity. Qed.

Lemma loop_END (input : list Message) (r : nat) (state : AgentState)
    (env : Env World) :
  loop input (S r) END state env = (Ok state, env).
Proof. reflexivity. Qed.

Lemma loop_START (input : list Message) (r : nat) (state : AgentState)
    (env : Env World) :
  loop input (S r) (Goto START) state env =
  loop input r (Goto agent) (mkState (messages state ++ input)) env.
Proof. reflexivity. Qed.

Lemma loop_agent (input : list Message) (r : nat) (state : AgentState)
    (env : Env World) (content : string) (tool_calls : list ToolCall)
    (w' : World) :
  llm_with_tools_invoke (messages state) (world env) =
    (Ok (content, tool_calls), w') ->
  loop input (S r) (Goto agent) state env =
  loop input r
    (match tool_calls with [] => END | _ :: _ => Goto tools_node end)
    (mkState (messages state ++ [AIMessage content tool_calls]))
    (mkEnv w' (trace env ++ [EvModel (messages state)])).
Proof.
  intros Hllm. cbn [pregel_loop run_node]. unfold bind, agent_node.
  rewrite Hllm. unfold next_of, operator_add, should_continue.
  cbn [messages]. rewrite last_snoc. by destruct tool_calls.
Qed.

Lemma loop_agent_raise (input : list Message) (r : nat) (state : AgentState)
    (env : Env World) (e : exn) (w' : World) :
  llm_with_tools_invoke (messages state) (world env) = (Raise e, w') ->
  loop input (S r) (Goto agent) state env =
  (Raise e, mkEnv w' (trace env ++ [EvModel (messages state)])).
Proof.
  intros Hllm. cbn [pregel_loop run_node]. unfold bind, agent_node.
  by rewrite Hllm.
Qed.

Lemma loop_tools (input : list Message) (r : nat) (state : AgentState)
    (env env' : Env World) (content : string) (tool_calls : list ToolCall)
    (msgs : list Message) :
  last (messages state) = Some (AIMessage content tool_calls) ->
  mapM answer tool_calls env = (Ok msgs, env') ->
  loop input (S r) (Goto tools_node) state env =
  loop input r (Goto agent) (mkState (messages state ++ msgs)) env'.
Proof.
  intros Hlast Hmap. cbn [pregel_loop run_node]. unfold bind, tool_node.
  by rewrite Hlast, Hmap.
Qed.

(** *** A model that answers at once *)

(** C5.  When the first model call returns a message without tool calls (and
    the recursion limit allows the start step and one node, as the limit 10
    of [run_tests] does), the run ends after that one model call and no tool
    execution, and the transcript it returns is the input followed by the
    model's message: one message longer. *)
Theorem plain_answer_one_visit
    (input : list Message) (limit : nat) (env : Env World)
    (content : string) (w' : World) :
  (2 <= limit)%nat ->
  llm_with_tools_invoke input (world env) = (Ok (content, []), w') ->
  let final := mkState (input ++ [AIMessage content []]) in
  let env' := mkEnv w' (trace env ++ [EvModel input]) in
  invoke input limit env = (Ok final, env') /\
  length (messages final) = (length input + 1)%nat /\
  count_events is_model (trace env') =
    (count_events is_model (trace env) + 1)%nat /\
  count_events is_tool (trace env') = count_events is_tool (trace env).
Proof.
  intros Hlimit Hllm. cbv zeta.
  destruct limit as [|[|r]]; [lia..|].
  split.
  { unfold agent_app_invoke. rewrite loop_START. cbn [messages app].
    by rewrite (loop_agent input (S r) (mkState input) env content [] w' Hllm). }
  cbn [messages trace]. rewrite length_app, !count_events_app. cbn.
  repeat split; lia.
Qed.

(** *** One tool round trip *)

(** C4.  When the first model call requests one tool call and the second
    returns a message without tool calls (and the recursion limit allows the
    start step and three nodes), the run handles exactly one tool invocation,
    makes exactly two model calls, and returns the input followed by three
    messages: the request, the tool's answer, the final reply. *)
Theorem one_tool_round_trip
    (input : list Message) (limit : nat) (env env2 : Env World)
    (content1 content2 : string) (call : ToolCall) (result : Message)
    (w1 w3 : World) :
  (4 <= limit)%nat ->
  llm_with_tools_invoke input (world env) = (Ok (content1, [call]), w1) ->
  answer call (mkEnv w1 (trace env ++ [EvModel input])) = (Ok result, env2) ->
  llm_with_tools_invoke (input ++ [AIMessage content1 [call]; result])
    (world env2) = (Ok (content2, []), w3) ->
  let seen2 := input ++ [AIMessage content1 [call]; result] in
  let final := mkState (seen2 ++ [AIMessage content2 []]) in
  let env' := mkEnv w3 (trace env2 ++ [EvModel seen2]) in
  invoke input limit env = (Ok final, env') /\
  length (messages final) = (length input + 3)%nat /\
  count_events is_tool (trace env') =
    (count_events is_tool (trace env) + 1)%nat /\
  count_events is_model (trace env') =
    (count_events is_model (trace env) + 2)%nat.
Proof.
  intros Hlimit Hllm1 Hanswer Hllm2. cbv zeta.
  destruct limit as [|[|[|[|r]]]]; [lia..|].
  set (env1 := mkEnv w1 (trace env ++ [EvModel input])) in *.
  set (state1 := mkState (input ++ [AIMessage content1 [call]])).
  assert (mapM answer [call] env1 = (Ok [result], env2)) as Hmap.
  { cbn [mapM]. unfold bind. by rewrite Hanswer. }
  split.
  { unfold agent_app_invoke. rewrite loop_START. cbn [messages app].
    rewrite (loop_agent input (S (S (S r))) (mkState input) env content1
               [call] w1 Hllm1).
    cbn [messages]. fold env1. fold state1.
    rewrite (loop_tools input (S (S r)) state1 env1 env2 content1 [call]
               [result]); [|apply last_snoc|exact Hmap].
    unfold state1. cbn [messages]. rewrite <- app_assoc. cbn [app].
    by rewrite (loop_agent input (S r)
                  (mkState (input ++ [AIMessage content1 [call]; result]))
                  env2 content2 [] w3 Hllm2). }
  destruct (run_one_trace call env1)
    as (c & s & env2' & posts & Hone & Htr & Hposts).
  rewrite Hanswer in Hone. injection Hone as _ <-.
  cbn [messages trace]. rewrite Htr. unfold env1. cbn [trace].
  change (EvTool call :: posts) with ([EvTool call] ++ posts).
  rewrite !length_app, !count_events_app.
  rewrite (count_events_none is_tool posts), (count_events_none is_model posts);
    [|eapply Forall_impl; [exact Hposts|]; by intros [] ?..].
  cbn. lia.
Qed.

(** *** The trace only grows *)

Lemma loop_trace_extends (input : list Message) (r : nat) (next : Target)
    (state : AgentState) (env : Env World) :
  exists new, trace (snd (loop input r next state env)) = trace env ++ new.
Proof.
  revert next state env. induction r as [|r IH]; intros next state env.
  - exists []. cbn. by rewrite app_nil_r.
  - destruct next as [[| |]|].
    + rewrite loop_START. apply IH.
    + destruct (llm_with_tools_invoke (messages state) (world env))
        as [[[content tool_calls]|e] w'] eqn:Hllm.
      * rewrite (loop_agent input r state env content tool_calls w' Hllm).
        destruct (IH (match tool_calls with
                      | [] => END
                      | _ :: _ => Goto tools_node
                      end)
                    (mkState (messages state ++ [AIMessage content tool_calls]))
                    (mkEnv w' (trace env ++ [EvModel (messages state)])))
          as (new & ->).
        exists (EvModel (messages state) :: new). cbn [trace].
        by rewrite <- app_assoc.
      * rewrite (loop_agent_raise input r state env e w' Hllm).
        by exists [EvModel (messages state)].
    + destruct (last (messages state)) as [m|] eqn:Hlast.
      2:{ exists []. cbn [pregel_loop run_node]. unfold bind, tool_node.
          rewrite Hlast. cbn. by rewrite app_nil_r. }
      destruct m as [c|c|c tool_calls|c n i s];
        try (exists []; cbn [pregel_loop run_node]; unfold bind, tool_node;
             rewrite Hlast; cbn; by rewrite app_nil_r).
      destruct (mapM_run_one tool_calls env)
        as (msgs & env' & new & Hmap & Htr & _).
      rewrite (loop_tools input r state env env' c tool_calls msgs Hlast Hmap).
      destruct (IH (Goto agent) (mkState (messages state ++ msgs)) env')
        as (new' & ->).
      exists (new ++ new'). by rewrite Htr, <- app_assoc.
    + exists []. rewrite loop_END. cbn. by rewrite app_nil_r.
Qed.

(** *** Leaving the loop *)

(** C1.  At a model turn with at least two steps left: when the model's
    message has no tool calls, the run ends there; the message is appended,
    the whole state is returned, and the model call is the last effect of
    the run.  When the message has tool calls the run does not end there:
    it goes on to the tool node, and the next effect is the handling of the
    first call.  Once the target is [END] the loop returns the state as it
    is, with no further effect. *)
Theorem done_exactly_on_plain_answer
    (input : list Message) (r : nat) (state : AgentState) (env : Env World)
    (content : string) (tool_calls : list ToolCall) (w' : World) :
  llm_with_tools_invoke (messages state) (world env) =
    (Ok (content, tool_calls), w') ->
  let state' := mkState (messages state ++ [AIMessage content tool_calls]) in
  let env' := mkEnv w' (trace env ++ [EvModel (messages state)]) in
  let run := loop input (S (S r)) (Goto agent) state env in
  (tool_calls = [] -> run = (Ok state', env')) /\
  (tool_calls <> [] ->
   run = loop input (S r) (Goto tools_node) state' env' /\
   run <> (Ok state', env') /\
   exists call rest,
     head tool_calls = Some call /\
     trace (snd run) = trace env' ++ EvTool call :: rest) /\
  loop input (S r) END state' env' = (Ok state', env').
Proof.
  intros Hllm. cbv zeta.
  rewrite (loop_agent input (S r) state env content tool_calls w' Hllm).
  split; [by intros ->|]. split; [|reflexivity].
  intros Hcalls. destruct tool_calls as [|call calls]; [done|].
  split; [reflexivity|].
  set (state' := mkState (messages state ++ [AIMessage content (call :: calls)])).
  set (env' := mkEnv w' (trace env ++ [EvModel (messages state)])).
  destruct (mapM_run_one (call :: calls) env')
    as (msgs & env2 & new & Hmap & Htr & _ & _ & _ & Hhead & _).
  rewrite (loop_tools input r state' env' env2 content (call :: calls) msgs
             (last_snoc _ _) Hmap).
  destruct (loop_trace_extends input r (Goto agent)
              (mkState (messages state' ++ msgs)) env2) as (more & Hmore).
  destruct new as [|e new]; [discriminate|].
  cbn in Hhead. injection Hhead as ->.
  assert (trace (snd (loop input r (Goto agent)
                        (mkState (messages state' ++ msgs)) env2)) =
          trace env' ++ EvTool call :: new ++ more) as Htrace.
  { rewrite Hmore, Htr, <- app_assoc. reflexivity. }
  split.
  - intros Heq. rewrite Heq in Htrace. cbn [snd] in Htrace.
    apply (f_equal length) in Htrace. rewrite length_app in Htrace.
    cbn [length] in Htrace. lia.
  - by exists call, (new ++ more).
Qed.

(** *** A model that never answers *)

Lemma div2_succ_le (n : nat) : (1 <= n)%nat -> (Nat.div2 (S n) <= n)%nat.
Proof.
  intros Hn. pose proof (Nat.div2_odd (S n)) as Hodd.
  destruct (Nat.odd (S n)); cbn [Nat.b2n] in Hodd; lia.
Qed.

Lemma loop_never_done (input : list Message) :
  (forall seen w, exists content tool_calls w',
     llm_with_tools_invoke seen w = (Ok (content, tool_calls), w') /\
     tool_calls <> []) ->
  forall (n r : nat), (r <= n)%nat ->
  forall (state : AgentState) (env : Env World),
  exists env',
    loop input r (Goto agent) state env = (Raise GraphRecursionError, env') /\
    count_events is_model (trace env') =
      (count_events is_model (trace env) + Nat.div2 (S r))%nat.
Proof.
  intros Halways. induction n as [|n IH]; intros r Hr state env.
  - assert (r = O) as -> by lia. exists env. cbn. split; [reflexivity|lia].
  - destruct r as [|[|r]].
    + exists env. cbn. split; [reflexivity|lia].
    + destruct (Halways (messages state) (world env))
        as (content & tool_calls & w' & Hllm & Hne).
      rewrite (loop_agent input O state env content tool_calls w' Hllm).
      eexists. split; [reflexivity|]. cbn [trace].
      rewrite count_events_app. cbn. lia.
    + destruct (Halways (messages state) (world env))
        as (content & tool_calls & w' & Hllm & Hne).
      rewrite (loop_agent input (S r) state env content tool_calls w' Hllm).
      destruct tool_calls as [|call calls]; [done|].
      set (state' := mkState (messages state ++ [AIMessage content (call :: calls)])).
      set (env1 := mkEnv w' (trace env ++ [EvModel (messages state)])).
      destruct (mapM_run_one (call :: calls) env1)
        as (msgs & env2 & new & Hmap & Htr & Hnomodel & _).
      rewrite (loop_tools input r state' env1 env2 content (call :: calls) msgs
                 (last_snoc _ _) Hmap).
      destruct (IH r ltac:(lia) (mkState (messages state' ++ msgs)) env2)
        as (env' & Hloop & Hcount).
      exists env'. split; [exact Hloop|].
      rewrite Hcount, Htr. unfold env1. cbn [trace].
      rewrite !count_events_app, (count_events_none is_model new Hnomodel).
      cbn. lia.
Qed.

(** C2 (amended).  When every model call returns a message with at least one
    tool call, the run fails with the recursion-limit error, for every limit
    of at least 1.  The limit counts the steps of both nodes, so the model
    has been called half the limit, rounded up, by then: never more often
    than the limit, and fewer times than the limit once the limit is 2 or
    more. *)
Theorem recursion_limit_counts_both_nodes
    (input : list Message) (limit : nat) (env : Env World) :
  (forall seen w, exists content tool_calls w',
     llm_with_tools_invoke seen w = (Ok (content, tool_calls), w') /\
     tool_calls <> []) ->
  (1 <= limit)%nat ->
  exists env',
    invoke input limit env = (Raise GraphRecursionError, env') /\
    count_events is_model (trace env') =
      (count_events is_model (trace env) + Nat.div2 (S limit))%nat /\
    (Nat.div2 (S limit) <= limit)%nat.
Proof.
  intros Halways Hlimit.
  destruct limit as [|limit]; [lia|].
  unfold agent_app_invoke. rewrite loop_START.
  destruct (loop_never_done input Halways (S limit) (S limit) ltac:(lia)
              (mkState (messages (mkState []) ++ input)) env)
    as (env' & Hloop & Hcount).
  exists env'. split; [exact Hloop|]. split; [exact Hcount|].
  by apply div2_succ_le.
Qed.

(** A run that returns has its last model call as its last effect, and the
    message that call returned, which has no tool calls, as the last message
    of the returned transcript. *)
Lemma loop_done_shape (input : list Message) (r : nat) (next : Target)
    (state final : AgentState) (env env' : Env World) :
  loop input r next state env = (Ok final, env') ->
  match next with
  | END => final = state /\ env' = env
  | Goto _ =>
      exists seen content tr,
        messages final = seen ++ [AIMessage content []] /\
        trace env' = tr ++ [EvModel seen]
  end.
Proof.
  revert next state env. induction r as [|r IH]; intros next state env Hrun;
    [discriminate|].
  destruct next as [[| |]|].
  - rewrite loop_START in Hrun. by apply IH in Hrun.
  - destruct (llm_with_tools_invoke (messages state) (world env))
      as [[[content tool_calls]|e] w'] eqn:Hllm.
    2:{ by rewrite (loop_agent_raise input r state env e w' Hllm) in Hrun. }
    rewrite (loop_agent input r state env content tool_calls w' Hllm) in Hrun.
    apply IH in Hrun. destruct tool_calls as [|call calls]; [|exact Hrun].
    destruct Hrun as [-> ->]. by exists (messages state), content, (trace env).
  - destruct (last (messages state)) as [[c|c|c tool_calls|c n i s]|] eqn:Hlast;
      try (cbn [pregel_loop run_node] in Hrun; unfold bind, tool_node in Hrun;
           rewrite Hlast in Hrun; discriminate).
    destruct (mapM_run_one tool_calls env) as (msgs & env1 & new & Hmap & _).
    rewrite (loop_tools input r state env env1 c tool_calls msgs Hlast Hmap)
      in Hrun.
    by apply IH in Hrun.
  - rewrite loop_END in Hrun. by injection Hrun as <- <-.
Qed.

Lemma done_run_ends_with_plain_answer
    (input : list Message) (limit : nat) (env env' : Env World)
    (final : AgentState) :
  invoke input limit env = (Ok final, env') ->
  exists seen content tr,
    messages final = seen ++ [AIMessage content []] /\
    trace env' = tr ++ [EvModel seen].
Proof.
  unfold agent_app_invoke. destruct limit as [|limit]; [discriminate|].
  apply loop_done_shape.
Qed.

(** *** Referential integrity of the transcript *)

(** The invariant of the loop: before a model turn the transcript is
    answered; before a tool turn it is an answered transcript followed by
    the [AIMessage] whose calls are about to be answered. *)
Lemma loop_integrity (input : list Message) (r : nat) (next : Target)
    (state final : AgentState) (env env' : Env World) :
  loop input r next state env = (Ok final, env') ->
  match next with
  | Goto START => answered (messages state ++ input) = true
  | Goto agent => answered (messages state) = true
  | Goto tools_node =>
      exists pre content tool_calls,
        messages state = pre ++ [AIMessage content tool_calls] /\
        answered pre = true
  | END => answered (messages state) = true
  end ->
  answered (messages final) = true /\
  exists new,
    trace env' = trace env ++ new /\
    Forall (model_saw (fun seen => answered seen = true)) new.
Proof.
  revert next state env. induction r as [|r IH]; intros next state env Hrun Hinv;
    [discriminate|].
  destruct next as [[| |]|].
  - rewrite loop_START in Hrun. by apply IH in Hrun.
  - destruct (llm_with_tools_invoke (messages state) (world env))
      as [[[content tool_calls]|e] w'] eqn:Hllm.
    2:{ by rewrite (loop_agent_raise input r state env e w' Hllm) in Hrun. }
    rewrite (loop_agent input r state env content tool_calls w' Hllm) in Hrun.
    apply IH in Hrun.
    + destruct Hrun as (Hfinal & new & Htr & Hnew). split; [exact Hfinal|].
      exists (EvModel (messages state) :: new). cbn [trace] in Htr.
      split; [by rewrite Htr, <- app_assoc|]. by constructor.
    + destruct tool_calls as [|call calls]; cbn [messages].
      * by apply answered_plain.
      * by exists (messages state), content, (call :: calls).
  - destruct Hinv as (pre & content & tool_calls & Hstate & Hpre).
    destruct (mapM_run_one tool_calls env)
      as (msgs & env1 & new & Hmap & Htr & Hnomodel & _ & _ & _ & Hscan).
    rewrite (loop_tools input r state env env1 content tool_calls msgs) in Hrun;
      [|rewrite Hstate; apply last_snoc|exact Hmap].
    apply IH in Hrun.
    + destruct Hrun as (Hfinal & new' & Htr' & Hnew'). split; [exact Hfinal|].
      exists (new ++ new'). split; [by rewrite Htr', Htr, <- app_assoc|].
      apply Forall_app. split; [|exact Hnew'].
      eapply Forall_impl; [exact Hnomodel|]. by intros [] ?.
    + cbn [messages]. rewrite Hstate. by apply answered_turn.
  - rewrite loop_END in Hrun. injection Hrun as <- <-.
    split; [exact Hinv|]. exists []. split; [by rewrite app_nil_r|constructor].
Qed.

(** C3.  A run that starts from an answered transcript (the system and user
    messages of [run_tests] are one) and returns, returns an answered
    transcript: each [AIMessage] is followed by one tool message per tool
    call, in order and with the call's id, and there is no other tool
    message.  Hence, for every id, as many results as invocations; every
    invocation has a later result with its id; every result has an earlier
    invocation with its id; and every model call of the run saw a transcript
    in which all earlier invocations were answered. *)
Theorem transcript_integrity
    (input : list Message) (limit : nat) (env env' : Env World)
    (final : AgentState) :
  answered input = true ->
  invoke input limit env = (Ok final, env') ->
  let ms := messages final in
  answered ms = true /\
  (forall id, count_results id ms = count_invocations id ms) /\
  (forall (i : nat) content tool_calls call,
     ms !! i = Some (AIMessage content tool_calls) -> call ∈ tool_calls ->
     exists (j : nat) c n s,
       (i < j)%nat /\ ms !! j = Some (ToolMessage c n (tc_id call) s)) /\
  (forall (j : nat) c n id s,
     ms !! j = Some (ToolMessage c n id s) ->
     exists (i : nat) content tool_calls call,
       (i < j)%nat /\ ms !! i = Some (AIMessage content tool_calls) /\
       call ∈ tool_calls /\ tc_id call = id) /\
  exists new,
    trace env' = trace env ++ new /\
    Forall (model_saw (fun seen => answered seen = true)) new.
Proof.
  intros Hinput Hrun. cbv zeta.
  unfold agent_app_invoke in Hrun. destruct limit as [|limit]; [discriminate|].
  apply loop_integrity in Hrun; [|exact Hinput].
  destruct Hrun as (Hfinal & Hnew). split; [exact Hfinal|].
  apply answered_scan in Hfinal.
  split.
  { intros id. pose proof (scan_balance id _ _ _ Hfinal) as Hbal.
    cbn in Hbal. lia. }
  split; [apply (scan_invocation_answered _ _ Hfinal)|].
  split; [|exact Hnew].
  intros j c n id s Hj.
  destruct (scan_result_has_invocation _ _ _ Hfinal j c n id s Hj)
    as [(call & Hin & _)|Hearlier]; [|exact Hearlier].
  by apply elem_of_nil in Hin.
Qed.

End LoopFacts.

(** ** The loop on the scripted world *)

Lemma plain_answer_one_visit_witness :
  (2 <= 10)%nat /\
  Stub.agent_app_invoke Stub.seed 10 (Stub.env0 Stub.w_plain) =
  (Ok (mkState (Stub.seed ++ [AIMessage "Happy to help." []])),
   mkEnv Stub.w_plain [EvModel Stub.seed]).
Proof.
  split; [lia|].
  apply (plain_answer_one_visit Stub.environ Stub.requests_post Stub.llm
           Stub.int_of_str Stub.tool_error_text Stub.seed 10
           (Stub.env0 Stub.w_plain) "Happy to help." Stub.w_plain);
    [lia|reflexivity].
Defined.

Lemma one_tool_round_trip_witness :
  let request := AIMessage "" [Stub.refund_call 100] in
  let result :=
    ToolMessage
      "SUCCESS: Refund processed for 'Chicken Pizza'. Reason: Burnt. Amount: 100% credited to wallet."
      "process_refund" "call_1" status_success in
  let run := Stub.agent_app_invoke Stub.seed 10 (Stub.env0 Stub.w_one_tool) in
  fst run =
    Ok (mkState ((Stub.seed ++ [request; result]) ++ [AIMessage "Happy to help." []])) /\
  count_events is_tool (trace (snd run)) = 1%nat.
Proof.
  intros request result run.
  destruct (one_tool_round_trip Stub.environ Stub.requests_post Stub.llm
              Stub.int_of_str Stub.tool_error_text Stub.seed 10
              (Stub.env0 Stub.w_one_tool)
              (mkEnv Stub.w_plain [EvModel Stub.seed; EvTool (Stub.refund_call 100)])
              "" "Happy to help." (Stub.refund_call 100) result
              Stub.w_plain Stub.w_plain)
    as (Hrun & _ & Htools & _);
    [lia|reflexivity|vm_compute; reflexivity|reflexivity|].
  unfold run. fold Stub.agent_app_invoke in Hrun. rewrite Hrun.
  split; [reflexivity|exact Htools].
Defined.

Lemma done_exactly_on_plain_answer_witness :
  Stub.pregel_loop Stub.seed 2 (Goto agent) (mkState Stub.seed)
    (Stub.env0 Stub.w_plain) =
  (Ok (mkState (Stub.seed ++ [AIMessage "Happy to help." []])),
   mkEnv Stub.w_plain [EvModel Stub.seed]).
Proof.
  destruct (done_exactly_on_plain_answer Stub.environ Stub.requests_post
              Stub.llm Stub.int_of_str Stub.tool_error_text Stub.seed 0
              (mkState Stub.seed) (Stub.env0 Stub.w_plain) "Happy to help." []
              Stub.w_plain) as (Hplain & _); [reflexivity|].
  apply Hplain. reflexivity.
Defined.

(** C2 as stated fails: with the limit 10 of [run_tests] and a model that
    requests a tool on every call, the run fails with the recursion-limit
    error after five model calls, not ten. *)
Lemma always_tool_limit_10_five_model_calls :
  let run := Stub.run_case_always Stub.seed (Stub.env0 Stub.w_plain) in
  fst run = Raise GraphRecursionError /\
  count_events is_model (trace (snd run)) = 5%nat /\
  count_events is_model (trace (snd run)) <> 10%nat.
Proof. vm_compute. split; [reflexivity|]. split; [reflexivity|discriminate]. Qed.

Lemma recursion_limit_counts_both_nodes_witness :
  exists env',
    Stub.agent_app_invoke_always Stub.seed 10 (Stub.env0 Stub.w_plain) =
    (Raise GraphRecursionError, env') /\
    count_events is_model (trace env') = 5%nat /\ (5 <= 10)%nat.
Proof.
  apply (recursion_limit_counts_both_nodes Stub.environ Stub.requests_post
           Stub.llm_always Stub.int_of_str Stub.tool_error_text Stub.seed 10
           (Stub.env0 Stub.w_plain)); [|lia].
  intros seen w. eexists _, _, _. split; [reflexivity|discriminate].
Defined.

Lemma transcript_integrity_witness :
  let run := Stub.agent_app_invoke Stub.seed 10 (Stub.env0 Stub.w_one_tool) in
  answered Stub.seed = true /\
  (forall final, fst run = Ok final ->
   answered (messages final) = true /\
   count_results "call_1" (messages final) =
   count_invocations "call_1" (messages final)).
Proof.
  intros run. split; [reflexivity|]. intros final Hfinal.
  destruct (transcript_integrity Stub.environ Stub.requests_post Stub.llm
              Stub.int_of_str Stub.tool_error_text Stub.seed 10
              (Stub.env0 Stub.w_one_tool) (snd run) final)
    as (Hans & Hbal & _); [reflexivity| |by split].
  rewrite <- Hfinal. fold Stub.agent_app_invoke. fold run. by destruct run.
Defined.

(** * Further properties of [agent.py] *)

Lemma last_None_nil (ms : list Message) :
  last ms = None <-> ms = [].
Proof. apply last_None. Qed.

(** X6.  [should_continue] needs a last message with tool calls to look at:
    it raises [IndexError] exactly on the empty transcript,
    [AttributeError] exactly when the last message is not an [AIMessage],
    and gives a route exactly when it is one. *)
Theorem should_continue_errors (state : AgentState) :
  (should_continue state = Raise IndexError <-> messages state = []) /\
  (should_continue state = Raise AttributeError <->
   exists m, last (messages state) = Some m /\
             forall content tool_calls, m <> AIMessage content tool_calls) /\
  ((exists r, should_continue state = Ok r) <->
   exists content tool_calls,
     last (messages state) = Some (AIMessage content tool_calls)).
Proof.
  rewrite <- last_None_nil. unfold should_continue.
  destruct (last (messages state)) as [[c|c|c calls|c n i s]|]; repeat split;
    try (intros; discriminate); try (intros; reflexivity); try done;
    try (intros _; eexists; split; [reflexivity|]; intros; discriminate);
    try (intros (m & Hm & Hnot); injection Hm as <-; by destruct (Hnot c calls));
    try (intros (m & Hm & _); discriminate);
    try (intros (r & Hr); discriminate);
    try (intros (? & ? & Hm); discriminate);
    try (intros _; by eauto);
    try (destruct calls; intros; discriminate);
    try (intros _; destruct calls; by eauto).
Qed.

(** X4.  The registry ToolNode builds from the list [tools] finds each tool
    under its own name and under no other. *)
Theorem tools_by_name_roundtrip (name : string) (t : Tool) :
  tools_by_name name = Some t <-> tool_name t = name.
Proof.
  split.
  - unfold tools_by_name, tools. cbn [List.find].
    repeat match goal with
      | |- context [String.eqb ?a name] => destruct (String.eqb_spec a name)
      end; intros [= <-]; done.
  - intros <-. by destruct t.
Qed.

Section MoreToolFacts.

Context {World : Type}.
Variable environ : World -> gmap string string.
Variable requests_post :
  string -> gmap string string -> World -> PostOutcome * World.
Variable int_of_str : string -> option Z.
Variable tool_error_text : ToolCall -> exn -> string.

Local Abbreviation escalate := (escalate_to_support_admin environ requests_post).
Local Abbreviation call_tool := (invoke_tool environ requests_post int_of_str).
Local Abbreviation answer :=
  (run_one environ requests_post int_of_str tool_error_text).
Local Abbreviation node_tools :=
  (tool_node environ requests_post int_of_str tool_error_text).

(** X1.  [contact_delivery_partner] only formats text: whatever the
    arguments, the outside world and the trace are left as they were (nothing
    is sent to a rider).  With a text [message] it returns the alert with the
    message in it; without one, or with an integer, the call is rejected. *)
Theorem contact_delivery_partner_only_formats
    (args : gmap string value) (env : Env World) :
  let run := call_tool tool_contact_delivery_partner args env in
  snd run = env /\
  (forall message,
     args !! "message" = Some (VStr message) ->
     fst run = Ok (contact_delivery_partner message) /\
     occurs_in message (contact_delivery_partner message)) /\
  (args !! "message" = None \/ (exists n, args !! "message" = Some (VInt n)) ->
   fst run = Raise ValidationError).
Proof.
  cbv zeta. unfold invoke_tool, arg_str. split; [|split].
  - by destruct (args !! "message") as [[?|?]|].
  - intros message ->. split; [reflexivity|].
    unfold contact_delivery_partner. apply occurs_in_later, occurs_in_here.
  - intros [-> | (n & ->)]; reflexivity.
Qed.

(** X2.  With both secrets set and not empty, [escalate_to_support_admin]
    sends exactly one request: to the bot URL that carries the token, with
    the chat id and an alert text that carries the urgency and the issue
    summary.  It returns the notified text when the request returns and the
    failure text with [str(e)] when it raises. *)
Theorem escalate_sends_one_alert
    (issue_summary urgency token chat_id : string) (env : Env World) :
  environ (world env) !! "TELEGRAM_BOT_TOKEN" = Some token ->
  environ (world env) !! "TELEGRAM_CHAT_ID" = Some chat_id ->
  token <> "" -> chat_id <> "" ->
  exists (data : gmap string string) outcome w',
    requests_post (telegram_url token) data (world env) = (outcome, w') /\
    data !! "chat_id" = Some chat_id /\
    data !! "text" = Some (alert_text issue_summary urgency) /\
    occurs_in token (telegram_url token) /\
    occurs_in urgency (alert_text issue_summary urgency) /\
    occurs_in issue_summary (alert_text issue_summary urgency) /\
    escalate issue_summary urgency env =
    (Ok (match outcome with
         | Response _ => ESCALATED_OK
         | RequestException str_e => escalation_failed str_e
         end),
     mkEnv w' (trace env ++ [EvPost (telegram_url token) data])).
Proof.
  intros Htok Hchat Hne1 Hne2.
  pose proof (escalate_with_secrets environ requests_post issue_summary urgency
                token chat_id env Htok Hchat Hne1 Hne2) as Hrun.
  cbv zeta in Hrun.
  set (data := <["chat_id" := chat_id]>
                 (<["text" := alert_text issue_summary urgency]>
                    (∅ : gmap string string))) in *.
  destruct (requests_post (telegram_url token) data (world env))
    as [outcome w'] eqn:Hpost.
  exists data, outcome, w'. split; [exact Hpost|].
  split; [unfold data; by simplify_map_eq|].
  split; [unfold data; by simplify_map_eq|].
  split; [unfold telegram_url; apply occurs_in_later, occurs_in_here|].
  split; [unfold alert_text; do 5 apply occurs_in_later; apply occurs_in_here|].
  split; [|exact Hrun].
  unfold alert_text. do 8 apply occurs_in_later. exists "", "".
  clear. induction issue_summary as [|a s IH]; [reflexivity|].
  change (String a s = String a ("" +:+ s +:+ "")). by rewrite <- IH.
Qed.

(** X3.  [escalate_to_support_admin] never raises, whatever the environment
    and the transport do.  It sends one request when both secrets are set
    and not empty and none otherwise: a secret set to the empty string
    counts as missing, and then the simulation text is returned and nothing
    outside changes. *)
Theorem escalate_never_raises
    (issue_summary urgency : string) (env : Env World) :
  let both :=
    truthy (environ (world env) !! "TELEGRAM_BOT_TOKEN") &&
    truthy (environ (world env) !! "TELEGRAM_CHAT_ID") in
  exists text env',
    escalate issue_summary urgency env = (Ok text, env') /\
    count_events is_post (trace env') =
      (count_events is_post (trace env) + (if both then 1 else 0))%nat /\
    (both = false -> text = ESCALATED_SIMULATION /\ env' = env).
Proof.
  cbv zeta. unfold escalate_to_support_admin, bind, os_getenv, ret, post.
  destruct (environ (world env) !! "TELEGRAM_BOT_TOKEN") as [t|];
    [|exists ESCALATED_SIMULATION, env; cbn; repeat split; lia].
  destruct (environ (world env) !! "TELEGRAM_CHAT_ID") as [c|];
    [|exists ESCALATED_SIMULATION, env; rewrite andb_false_r; repeat split; lia].
  destruct (truthy (Some t) && truthy (Some c));
    [|exists ESCALATED_SIMULATION, env; repeat split; lia].
  destruct (requests_post _ _ _) as [[code|str_e] w'];
    eexists _, _; (split; [reflexivity|]); cbn [trace];
    rewrite count_events_app; cbn; (split; [lia|discriminate]).
Qed.

Lemma mapM_run_one_shape (calls : list ToolCall) (env : Env World) :
  exists msgs env',
    mapM answer calls env = (Ok msgs, env') /\
    Forall2 (fun call msg =>
               exists text,
                 msg = ToolMessage text (tc_name call) (tc_id call)
                         (expected_status int_of_str call)) calls msgs.
Proof.
  revert env. induction calls as [|call calls IH]; intros env.
  - exists [], env. split; [reflexivity|constructor].
  - destruct (run_one_answers environ requests_post int_of_str tool_error_text
                call env) as (text & env1 & Hone).
    destruct (IH env1) as (msgs & env2 & Hrest & Hshape).
    eexists (_ :: msgs), env2. split.
    + cbn [mapM]. unfold bind. by rewrite Hone, Hrest.
    + constructor; [by exists text|exact Hshape].
Qed.

(** X5.  On a state whose last message is an [AIMessage], the tool node
    does not raise and returns one tool message per tool call, in the order
    of the calls, each with the name and the id of its call and with status
    [error] exactly for an unregistered name or rejected arguments; it
    handles each call once and calls the model never. *)
Theorem tool_node_answers_in_order
    (state : AgentState) (env : Env World) (content : string)
    (tool_calls : list ToolCall) :
  last (messages state) = Some (AIMessage content tool_calls) ->
  exists msgs env',
    node_tools state env = (Ok msgs, env') /\
    Forall2 (fun call msg =>
               exists text,
                 msg = ToolMessage text (tc_name call) (tc_id call)
                         (expected_status int_of_str call)) tool_calls msgs /\
    count_events is_tool (trace env') =
      (count_events is_tool (trace env) + length tool_calls)%nat /\
    count_events is_model (trace env') = count_events is_model (trace env).
Proof.
  intros Hlast. unfold tool_node. rewrite Hlast.
  destruct (mapM_run_one_shape tool_calls env) as (msgs & env' & Hmap & Hshape).
  destruct (mapM_run_one environ requests_post int_of_str tool_error_text
              tool_calls env)
    as (msgs' & env'' & new & Hmap' & Htr & Hnomodel & Hct & _).
  rewrite Hmap in Hmap'. injection Hmap' as <- <-.
  exists msgs, env'. split; [exact Hmap|]. split; [exact Hshape|].
  rewrite Htr, !count_events_app, Hct.
  rewrite (count_events_none is_model new Hnomodel). lia.
Qed.

End MoreToolFacts.

Lemma contact_delivery_partner_only_formats_witness :
  fst (Stub.invoke_tool tool_contact_delivery_partner
         (<["message" := VStr "Gate 2"]> ∅) (Stub.env0 Stub.w_plain)) =
  Ok "RIDER_ALERT: Message sent to rider -> 'Gate 2'. Rider will call customer shortly.".
Proof.
  destruct (contact_delivery_partner_only_formats Stub.environ
              Stub.requests_post Stub.int_of_str
              (<["message" := VStr "Gate 2"]> ∅) (Stub.env0 Stub.w_plain))
    as (_ & Htext & _).
  destruct (Htext "Gate 2") as [Hrun _]; [reflexivity|]. exact Hrun.
Defined.

Lemma escalate_sends_one_alert_witness :
  fst (Stub.escalate "App crash" "high" (Stub.env0 Stub.w_offline)) =
  Ok "ESCALATION FAILED: Connection refused".
Proof.
  destruct (escalate_sends_one_alert Stub.environ Stub.requests_post
              "App crash" "high" "T" "C" (Stub.env0 Stub.w_offline))
    as (data & outcome & w' & Hpost & _ & _ & _ & _ & _ & Hrun);
    [reflexivity|reflexivity|discriminate|discriminate|].
  fold Stub.escalate in Hrun. rewrite Hrun.
  injection Hpost as <- _. reflexivity.
Defined.

Lemma tool_node_answers_in_order_witness :
  exists msgs env',
    Stub.run_tool_node
      (mkState (Stub.seed ++ [AIMessage "" [Stub.refund_call 100]]))
      (Stub.env0 Stub.w_plain) = (Ok msgs, env') /\
    length msgs = 1%nat.
Proof.
  destruct (tool_node_answers_in_order Stub.environ Stub.requests_post
              Stub.int_of_str Stub.tool_error_text
              (mkState (Stub.seed ++ [AIMessage "" [Stub.refund_call 100]]))
              (Stub.env0 Stub.w_plain) "" [Stub.refund_call 100])
    as (msgs & env' & Hrun & Hshape & _); [reflexivity|].
  exists msgs, env'. split; [exact Hrun|].
  by apply Forall2_length in Hshape.
Defined.

(** ** The run as a whole *)

Lemma count_ai_app (ms1 ms2 : list Message) :
  count_ai (ms1 ++ ms2) = (count_ai ms1 + count_ai ms2)%nat.
Proof.
  induction ms1 as [|[c|c|c calls|c n i s] ms1 IH]; cbn; [reflexivity|..];
    rewrite IH; lia.
Qed.

Lemma count_tool_messages_app (ms1 ms2 : list Message) :
  count_tool_messages (ms1 ++ ms2) =
  (count_tool_messages ms1 + count_tool_messages ms2)%nat.
Proof.
  induction ms1 as [|[c|c|c calls|c n i s] ms1 IH]; cbn; [reflexivity|..];
    rewrite IH; lia.
Qed.

Lemma answers_are_tool_messages (int_of_str : string -> option Z)
    (calls : list ToolCall) (msgs : list Message) :
  Forall2 (fun call msg =>
             exists text,
               msg = ToolMessage text (tc_name call) (tc_id call)
                       (expected_status int_of_str call)) calls msgs ->
  count_tool_messages msgs = length calls /\ count_ai msgs = O.
Proof.
  induction 1 as [|call msg calls msgs (text & ->) _ [IH1 IH2]];
    [split; reflexivity|].
  cbn. rewrite IH1. split; [reflexivity|exact IH2].
Qed.

Section MoreLoopFacts.

Context {World : Type}.
Variable environ : World -> gmap string string.
Variable requests_post :
  string -> gmap string string -> World -> PostOutcome * World.
Variable llm_with_tools_invoke :
  list Message -> World -> Result (string * list ToolCall) * World.
Variable int_of_str : string -> option Z.
Variable tool_error_text : ToolCall -> exn -> string.

Local Abbreviation answer :=
  (run_one environ requests_post int_of_str tool_error_text).
Local Abbreviation loop :=
  (pregel_loop environ requests_post llm_with_tools_invoke int_of_str
     tool_error_text).
Local Abbreviation invoke :=
  (agent_app_invoke environ requests_post llm_with_tools_invoke int_of_str
     tool_error_text).
Local Abbreviation step_agent :=
  (loop_agent environ requests_post llm_with_tools_invoke int_of_str
     tool_error_text).
Local Abbreviation step_agent_raise :=
  (loop_agent_raise environ requests_post llm_with_tools_invoke int_of_str
     tool_error_text).
Local Abbreviation step_tools :=
  (loop_tools environ requests_post llm_with_tools_invoke int_of_str
     tool_error_text).
Local Abbreviation step_START :=
  (loop_START environ requests_post llm_with_tools_invoke int_of_str
     tool_error_text).
Local Abbreviation step_END :=
  (loop_END environ requests_post llm_with_tools_invoke int_of_str
     tool_error_text).
Local Abbreviation tool_turn :=
  (mapM_run_one environ requests_post int_of_str tool_error_text).

(** *** How a run can fail *)

Lemma loop_failure (input : list Message) (r : nat) (next : Target)
    (state : AgentState) (env env' : Env World) (e : exn) :
  loop input r next state env = (Raise e, env') ->
  (next = Goto tools_node ->
   exists content tool_calls,
     last (messages state) = Some (AIMessage content tool_calls)) ->
  e = GraphRecursionError \/
  exists seen tr w,
    trace env' = tr ++ [EvModel seen] /\
    llm_with_tools_invoke seen w = (Raise e, world env').
Proof.
  revert next state env. induction r as [|r IH]; intros next state env Hrun Hinv.
  - left. by injection Hrun as <- _.
  - destruct next as [[| |]|].
    + rewrite step_START in Hrun. by apply IH in Hrun.
    + destruct (llm_with_tools_invoke (messages state) (world env))
        as [[[content tool_calls]|e0] w'] eqn:Hllm.
      * rewrite (step_agent input r state env content tool_calls w' Hllm)
          in Hrun.
        apply IH in Hrun; [exact Hrun|].
        intros _. exists content, tool_calls. cbn [messages]. apply last_snoc.
      * rewrite (step_agent_raise input r state env e0 w' Hllm) in Hrun.
        injection Hrun as <- <-. right.
        by exists (messages state), (trace env), (world env).
    + destruct (Hinv eq_refl) as (content & tool_calls & Hlast).
      destruct (tool_turn tool_calls env) as (msgs & env1 & new & Hmap & _).
      rewrite (step_tools input r state env env1 content tool_calls msgs Hlast
                 Hmap) in Hrun.
      by apply IH in Hrun.
    + by rewrite step_END in Hrun.
Qed.

(** X7.  A run fails in one of three ways only: with [ValueError] at once
    when the recursion limit is 0, with the recursion-limit error, or with
    the exception the model endpoint raised at the run's last model call,
    after which nothing more happens (no retry).  The routing function and
    the tool node never fail inside a run, whatever the model requests. *)
Theorem run_failure_modes
    (input : list Message) (limit : nat) (env env' : Env World) (e : exn) :
  invoke input limit env = (Raise e, env') ->
  (limit = O /\ e = ValueError /\ env' = env) \/
  e = GraphRecursionError \/
  exists seen tr w,
    trace env' = tr ++ [EvModel seen] /\
    llm_with_tools_invoke seen w = (Raise e, world env').
Proof.
  unfold agent_app_invoke. destruct limit as [|limit].
  - intros [= <- <-]. by left.
  - intros Hrun. right. apply loop_failure in Hrun; [exact Hrun|discriminate].
Qed.

(** *** What a run adds *)

Lemma loop_accounting (input : list Message) (r : nat) (next : Target)
    (state final : AgentState) (env env' : Env World) :
  loop input r next state env = (Ok final, env') ->
  (next = Goto tools_node ->
   exists content tool_calls,
     last (messages state) = Some (AIMessage content tool_calls)) ->
  exists added new,
    messages final =
      (messages state ++ match next with Goto START => input | _ => [] end)
      ++ added /\
    trace env' = trace env ++ new /\
    count_ai added = count_events is_model new /\
    count_tool_messages added = count_events is_tool new.
Proof.
  revert next state env. induction r as [|r IH]; intros next state env Hrun Hinv;
    [discriminate|].
  destruct next as [[| |]|].
  - rewrite step_START in Hrun. apply IH in Hrun; [|discriminate].
    destruct Hrun as (added & new & Hms & Htr & Hai & Htm).
    exists added, new. cbn [messages] in Hms. rewrite app_nil_r in Hms. done.
  - destruct (llm_with_tools_invoke (messages state) (world env))
      as [[[content tool_calls]|e0] w'] eqn:Hllm.
    2:{ by rewrite (step_agent_raise input r state env e0 w' Hllm) in Hrun. }
    rewrite (step_agent input r state env content tool_calls w' Hllm) in Hrun.
    apply IH in Hrun.
    2:{ intros _. exists content, tool_calls. cbn [messages]. apply last_snoc. }
    destruct Hrun as (added & new & Hms & Htr & Hai & Htm).
    exists (AIMessage content tool_calls :: added),
      (EvModel (messages state) :: new).
    cbn [messages trace] in Hms, Htr. rewrite app_nil_r.
    split.
    { rewrite Hms. destruct tool_calls; rewrite app_nil_r, <- app_assoc; done. }
    split; [by rewrite Htr, <- app_assoc|]. cbn. by rewrite Hai, Htm.
  - destruct (Hinv eq_refl) as (content & tool_calls & Hlast).
    destruct (tool_turn tool_calls env)
      as (msgs & env1 & new & Hmap & Htr & Hnomodel & Hct & _).
    destruct (mapM_run_one_shape environ requests_post int_of_str
                tool_error_text tool_calls env)
      as (msgs' & env1' & Hmap' & Hshape).
    rewrite Hmap in Hmap'. injection Hmap' as <- <-.
    apply answers_are_tool_messages in Hshape as [Htools Hnoai].
    rewrite (step_tools input r state env env1 content tool_calls msgs Hlast
               Hmap) in Hrun.
    apply IH in Hrun; [|discriminate].
    destruct Hrun as (added & new' & Hms & Htr' & Hai & Htm).
    exists (msgs ++ added), (new ++ new').
    cbn [messages] in Hms. rewrite app_nil_r in *.
    split; [by rewrite Hms, <- app_assoc|].
    split; [by rewrite Htr', Htr, <- app_assoc|].
    rewrite count_ai_app, count_tool_messages_app, !count_events_app.
    rewrite (count_events_none is_model new Hnomodel). lia.
  - rewrite step_END in Hrun. injection Hrun as <- <-.
    exists [], []. by rewrite !app_nil_r.
Qed.

(** X8.  The transcript a run returns is the input with messages appended,
    never changed or reordered; the appended part has one [AIMessage] per
    model call of the run and one [ToolMessage] per tool invocation the run
    handled. *)
Theorem run_appends_and_accounts
    (input : list Message) (limit : nat) (env env' : Env World)
    (final : AgentState) :
  invoke input limit env = (Ok final, env') ->
  exists added new,
    messages final = input ++ added /\
    trace env' = trace env ++ new /\
    count_ai added = count_events is_model new /\
    count_tool_messages added = count_events is_tool new.
Proof.
  unfold agent_app_invoke. destruct limit as [|limit]; [discriminate|].
  intros Hrun. apply loop_accounting in Hrun; [|discriminate].
  exact Hrun.
Qed.

(** *** A larger limit *)

Lemma loop_more_steps (input : list Message) (r : nat) (next : Target)
    (state final : AgentState) (env env' : Env World) (k : nat) :
  loop input r next state env = (Ok final, env') ->
  loop input (r + k) next state env = (Ok final, env').
Proof.
  revert next state env. induction r as [|r IH]; intros next state env Hrun;
    [discriminate|].
  change (S r + k)%nat with (S (r + k)).
  destruct next as [[| |]|].
  - rewrite step_START in Hrun. rewrite step_START. by apply IH.
  - destruct (llm_with_tools_invoke (messages state) (world env))
      as [[[content tool_calls]|e0] w'] eqn:Hllm.
    + rewrite (step_agent input r state env content tool_calls w' Hllm)
        in Hrun.
      rewrite (step_agent input (r + k) state env content tool_calls w' Hllm).
      by apply IH.
    + by rewrite (step_agent_raise input r state env e0 w' Hllm) in Hrun.
  - destruct (last (messages state)) as [[c|c|c tool_calls|c n i s]|] eqn:Hlast;
      try (cbn [pregel_loop run_node] in Hrun; unfold bind, tool_node in Hrun;
           rewrite Hlast in Hrun; discriminate).
    destruct (tool_turn tool_calls env) as (msgs & env1 & new & Hmap & _).
    rewrite (step_tools input r state env env1 c tool_calls msgs Hlast Hmap)
      in Hrun.
    rewrite (step_tools input (r + k) state env env1 c tool_calls msgs Hlast
               Hmap).
    by apply IH.
  - rewrite step_END in Hrun. by rewrite step_END.
Qed.

(** X9.  Raising the recursion limit never changes a run that returned: with
    any larger limit the same world gives the same transcript and the same
    effects. *)
Theorem larger_limit_same_result
    (input : list Message) (limit limit' : nat) (env env' : Env World)
    (final : AgentState) :
  invoke input limit env = (Ok final, env') ->
  (limit <= limit')%nat ->
  invoke input limit' env = (Ok final, env').
Proof.
  unfold agent_app_invoke. intros Hrun Hle.
  destruct limit as [|limit]; [discriminate|].
  destruct limit' as [|limit']; [lia|].
  replace (S (S limit')) with (S (S limit) + (limit' - limit))%nat by lia.
  by apply loop_more_steps.
Qed.

End MoreLoopFacts.

Lemma run_failure_modes_witness :
  let run := Stub.agent_app_invoke_down Stub.seed 10 (Stub.env0 Stub.w_plain) in
  fst run = Raise (ModelError "503 Service Unavailable") /\
  ((10%nat = O /\ ModelError "503 Service Unavailable" = ValueError /\
    snd run = Stub.env0 Stub.w_plain) \/
   ModelError "503 Service Unavailable" = GraphRecursionError \/
   exists seen tr w,
     trace (snd run) = tr ++ [EvModel seen] /\
     Stub.llm_down seen w =
     (Raise (ModelError "503 Service Unavailable"), world (snd run))).
Proof.
  intros run. split; [reflexivity|].
  apply (run_failure_modes Stub.environ Stub.requests_post Stub.llm_down
           Stub.int_of_str Stub.tool_error_text Stub.seed 10
           (Stub.env0 Stub.w_plain)).
  reflexivity.
Defined.

Lemma run_appends_and_accounts_witness :
  let run := Stub.agent_app_invoke Stub.seed 10 (Stub.env0 Stub.w_one_tool) in
  exists final added new,
    fst run = Ok final /\
    messages final = Stub.seed ++ added /\
    trace (snd run) = trace (Stub.env0 Stub.w_one_tool) ++ new /\
    count_ai added = count_events is_model new /\
    count_tool_messages added = count_events is_tool new.
Proof.
  intros run.
  destruct (fst run) as [final|e] eqn:Hfinal; [|vm_compute in Hfinal; discriminate].
  destruct (run_appends_and_accounts Stub.environ Stub.requests_post Stub.llm
              Stub.int_of_str Stub.tool_error_text Stub.seed 10
              (Stub.env0 Stub.w_one_tool) (snd run) final)
    as (added & new & Hrest).
  { rewrite <- Hfinal. fold Stub.agent_app_invoke. fold run. by destruct run. }
  by exists final, added, new.
Defined.

Lemma larger_limit_same_result_witness :
  Stub.agent_app_invoke Stub.seed 25 (Stub.env0 Stub.w_plain) =
  (Ok (mkState (Stub.seed ++ [AIMessage "Happy to help." []])),
   mkEnv Stub.w_plain [EvModel Stub.seed]).
Proof.
  apply (larger_limit_same_result Stub.environ Stub.requests_post Stub.llm
           Stub.int_of_str Stub.tool_error_text Stub.seed 2 25
           (Stub.env0 Stub.w_plain)); [reflexivity|lia].
Defined.

(** * Properties of [testing.py] *)

(** ** The prompt *)

(** X10.  When the case has an object under ["context"] with the four keys
    and has ["user_input"], [format_context_prompt] returns a prompt that
    carries the text of all five values, the user's input between double
    quotes. *)
Theorem format_context_prompt_carries_fields
    (container_text : json -> string)
    (data ctx time_placed items eta status user_input : json) :
  getitem data "context" = HOk ctx ->
  getitem ctx "time_placed" = HOk time_placed ->
  getitem ctx "items" = HOk items ->
  getitem ctx "eta" = HOk eta ->
  getitem ctx "status" = HOk status ->
  getitem data "user_input" = HOk user_input ->
  exists prompt,
    format_context_prompt container_text data = HOk prompt /\
    occurs_in (py_str container_text time_placed) prompt /\
    occurs_in (py_str container_text items) prompt /\
    occurs_in (py_str container_text eta) prompt /\
    occurs_in (py_str container_text status) prompt /\
    occurs_in (dquote +:+ py_str container_text user_input +:+ dquote) prompt.
Proof.
  intros Hctx Htp Hitems Heta Hstatus Hui. eexists. split.
  { unfold format_context_prompt.
    rewrite Hctx. cbn [hthen]. rewrite Htp. cbn [hthen].
    rewrite Hitems. cbn [hthen]. rewrite Heta. cbn [hthen].
    rewrite Hstatus. cbn [hthen]. rewrite Hui. cbn [hthen]. reflexivity. }
  split; [do 4 apply occurs_in_later; apply occurs_in_here|].
  split; [do 7 apply occurs_in_later; apply occurs_in_here|].
  split; [do 10 apply occurs_in_later; apply occurs_in_here|].
  split; [do 13 apply occurs_in_later; apply occurs_in_here|].
  do 19 apply occurs_in_later.
  exists "", (newline +:+ "    "). by rewrite <- !string_app_assoc.
Qed.

(** X11.  [format_context_prompt] fails only with [TypeError] (something
    that should be an object is not one) or with a [KeyError] for one of the
    six keys it reads; ["context"] is read first, so a case without it fails
    with that key whatever else is missing. *)
Theorem format_context_prompt_failures
    (container_text : json -> string) (data : json) (e : harness_exn) :
  format_context_prompt container_text data = HRaise e ->
  (e = TypeError \/ exists key, e = KeyError key /\ key ∈ prompt_keys) /\
  (forall e0, getitem data "context" = HRaise e0 -> e = e0).
Proof.
  assert (forall v key e1, getitem v key = HRaise e1 ->
            e1 = TypeError \/ e1 = KeyError key) as Hget.
  { intros v key e1. unfold getitem.
    destruct v as [s|n|l|fields]; try (intros [= <-]; by left).
    destruct (fields !! key); [discriminate|]. intros [= <-]. by right. }
  unfold format_context_prompt, prompt_keys.
  destruct (getitem data "context") as [ctx|e0] eqn:Hctx; cbn [hthen].
  2:{ intros [= <-]. split; [|by intros ? [= <-]].
      destruct (Hget _ _ _ Hctx) as [->| ->]; [by left|].
      right. eexists. split; [reflexivity|repeat first [apply list_elem_of_here | apply list_elem_of_further]]. }
  intros Hfail. split; [|intros e0; discriminate].
  repeat match type of Hfail with
    | context [getitem ?v ?k] =>
        let Hk := fresh "Hk" in
        destruct (getitem v k) eqn:Hk; cbn [hthen] in Hfail;
        [|injection Hfail as Heq; rewrite <- Heq;
          destruct (Hget _ _ _ Hk) as [->| ->]; [by left|];
          right; eexists; split; [reflexivity|repeat first [apply list_elem_of_here | apply list_elem_of_further]]]
    end.
  discriminate.
Qed.

(** ** The report *)

(** X12.  The names [run_tests] reports as actions are exactly the names of
    the tool calls the messages of the history request, whether or not a
    tool of that name exists or ran; the list is empty, and the report says
    direct reply, when no message requests a tool. *)
Theorem tool_names_are_requested_names (history : list Message) :
  (forall name,
     name ∈ tool_names history <->
     exists msg call,
       msg ∈ history /\ call ∈ calls_of msg /\ tc_name call = name) /\
  (tool_names history = [] <-> Forall (fun msg => calls_of msg = []) history) /\
  (Forall (fun msg => calls_of msg = []) history ->
   action_line (tool_names history) = "ACTION TAKEN: None (Direct Reply)").
Proof.
  assert (tool_names history = [] <->
          Forall (fun msg => calls_of msg = []) history) as Hnil.
  { unfold tool_names. induction history as [|msg history IH]; cbn.
    - split; [constructor|reflexivity].
    - rewrite Forall_cons, <- IH. split.
      + intros (Hm & Hrest)%app_eq_nil. split; [|exact Hrest].
        by destruct (calls_of msg).
      + intros [-> Hrest]. by rewrite Hrest. }
  split; [|split; [exact Hnil|]].
  - intros name. unfold tool_names. rewrite list_elem_of_In, in_flat_map.
    split.
    + intros (msg & Hmsg & Hname). apply list_elem_of_In in Hmsg, Hname.
      apply list_elem_of_fmap in Hname as (call & -> & Hcall).
      by exists msg, call.
    + intros (msg & call & Hmsg & Hcall & <-). exists msg.
      split; [by apply list_elem_of_In|].
      apply list_elem_of_In, list_elem_of_fmap. by exists call.
  - intros Hnone. apply Hnil in Hnone. by rewrite Hnone.
Qed.

(** ** Running the cases *)

Section HarnessFacts.

Context {World : Type}.
Variable environ : World -> gmap string string.
Variable requests_post :
  string -> gmap string string -> World -> PostOutcome * World.
Variable llm_with_tools_invoke :
  list Message -> World -> Result (string * list ToolCall) * World.
Variable int_of_str : string -> option Z.
Variable tool_error_text : ToolCall -> exn -> string.
Variable container_text : json -> string.

Local Abbreviation answer :=
  (run_one environ requests_post int_of_str tool_error_text).
Local Abbreviation loop :=
  (pregel_loop environ requests_post llm_with_tools_invoke int_of_str
     tool_error_text).
Local Abbreviation agent_run :=
  (run_case environ requests_post llm_with_tools_invoke int_of_str
     tool_error_text).
Local Abbreviation test_case :=
  (run_test_case environ requests_post llm_with_tools_invoke int_of_str
     tool_error_text container_text).
Local Abbreviation each_case :=
  (for_cases environ requests_post llm_with_tools_invoke int_of_str
     tool_error_text container_text).
Local Abbreviation tests :=
  (run_tests environ requests_post llm_with_tools_invoke int_of_str
     tool_error_text container_text).

(** A case is well formed when every key [run_tests] and
    [format_context_prompt] read is there. *)
Lemma run_test_case_well_formed
    (case id user_input ctx status items : json) (prompt : string)
    (h : HState World) :
  getitem case "id" = HOk id ->
  getitem case "user_input" = HOk user_input ->
  getitem case "context" = HOk ctx ->
  getitem ctx "status" = HOk status ->
  getitem ctx "items" = HOk items ->
  format_context_prompt container_text case = HOk prompt ->
  let header := header_lines container_text id user_input status items in
  test_case case h =
  match agent_run [SystemMessage system_instruction; HumanMessage prompt]
          (outside h) with
  | (Ok final, env') =>
      match last (messages final) with
      | Some msg =>
          (HOk tt,
           mkHState (printed h ++ header ++
                     report_lines (tool_names (messages final)) (content_of msg))
                    env')
      | None =>
          (HRaise (AgentRaised IndexError), mkHState (printed h ++ header) env')
      end
  | (Raise e, env') =>
      (HRaise (AgentRaised e), mkHState (printed h ++ header) env')
  end.
Proof.
  intros Hid Hui Hctx Hstatus Hitems Hprompt. cbv zeta.
  unfold run_test_case, hbind, print, hpure, hagent.
  rewrite Hid, Hui, Hctx. cbn [hthen]. rewrite Hstatus, Hitems, Hprompt.
  cbn [printed outside].
  destruct (agent_run _ _) as [[final|e] env'].
  - destruct (last (messages final)) as [msg|];
      cbn [printed outside]; rewrite <- !app_assoc; reflexivity.
  - rewrite <- !app_assoc. reflexivity.
Qed.

(** A case that went through was well formed and printed eight lines. *)
Lemma run_test_case_ok (case : json) (h h' : HState World) :
  test_case case h = (HOk tt, h') ->
  length (printed h') = (length (printed h) + 8)%nat.
Proof.
  intros Hrun.
  destruct (getitem case "id") as [id|e] eqn:Hid.
  2:{ unfold run_test_case, hbind, print, hpure in Hrun.
      rewrite Hid in Hrun. discriminate. }
  destruct (getitem case "user_input") as [ui|e] eqn:Hui.
  2:{ unfold run_test_case, hbind, print, hpure in Hrun.
      rewrite Hid, Hui in Hrun. discriminate. }
  destruct (getitem case "context") as [ctx|e] eqn:Hctx.
  2:{ unfold run_test_case, hbind, print, hpure in Hrun.
      rewrite Hid, Hui, Hctx in Hrun. discriminate. }
  destruct (getitem ctx "status") as [status|e] eqn:Hstatus.
  2:{ unfold run_test_case, hbind, print, hpure in Hrun.
      rewrite Hid, Hui, Hctx in Hrun. cbn [hthen] in Hrun.
      rewrite Hstatus in Hrun. discriminate. }
  destruct (getitem ctx "items") as [items|e] eqn:Hitems.
  2:{ unfold run_test_case, hbind, print, hpure in Hrun.
      rewrite Hid, Hui, Hctx in Hrun. cbn [hthen] in Hrun.
      rewrite Hstatus, Hitems in Hrun. discriminate. }
  destruct (format_context_prompt container_text case) as [prompt|e] eqn:Hprompt.
  2:{ unfold run_test_case, hbind, print, hpure in Hrun.
      rewrite Hid, Hui, Hctx in Hrun. cbn [hthen] in Hrun.
      rewrite Hstatus, Hitems, Hprompt in Hrun. discriminate. }
  rewrite (run_test_case_well_formed case id ui ctx status items prompt h
             Hid Hui Hctx Hstatus Hitems Hprompt) in Hrun.
  destruct (agent_run _ _) as [[final|e] env']; [|discriminate].
  destruct (last (messages final)) as [msg|]; [|discriminate].
  injection Hrun as <-. cbn [printed]. rewrite !length_app. cbn. lia.
Qed.

(** X13.  The loop over the cases stops at the first case that raises: the
    cases after it are never started, and what was printed and done up to
    the failure is all there is.  When every case of a first part goes
    through, the loop goes on with the rest from where the first part left
    the output and the world. *)
Theorem for_cases_stops_at_first_failure
    (test_cases rest : list json) (h : HState World) :
  each_case (test_cases ++ rest) h =
  match each_case test_cases h with
  | (HOk _, h') => each_case rest h'
  | (HRaise e, h') => (HRaise e, h')
  end.
Proof.
  revert h. induction test_cases as [|case test_cases IH]; intros h;
    [reflexivity|].
  cbn [app for_cases]. unfold hbind.
  destruct (test_case case h) as [[[]|e] h1]; [apply IH|reflexivity].
Qed.

Lemma for_cases_ok (test_cases : list json) (h h' : HState World) :
  each_case test_cases h = (HOk tt, h') ->
  length (printed h') = (length (printed h) + 8 * length test_cases)%nat.
Proof.
  revert h. induction test_cases as [|case test_cases IH]; intros h Hrun.
  - injection Hrun as <-. cbn. lia.
  - cbn [for_cases] in Hrun. unfold hbind in Hrun.
    destruct (test_case case h) as [[[]|e] h1] eqn:Hcase; [|discriminate].
    apply run_test_case_ok in Hcase. apply IH in Hrun.
    cbn [length]. lia.
Qed.

Lemma prints_more_print (line : string) : prints_more (World:=World) (print line).
Proof. intros h. by exists [line]. Qed.

Lemma prints_more_hpure {A} (r : HResult A) : prints_more (World:=World) (hpure r).
Proof. intros h. exists []. cbn. by rewrite app_nil_r. Qed.

Lemma prints_more_hagent {A} (m : M World A) : prints_more (hagent m).
Proof.
  intros h. exists []. unfold hagent.
  destruct (m (outside h)) as [[a|e] env']; cbn; by rewrite app_nil_r.
Qed.

Lemma prints_more_hbind {A B} (m : H World A) (k : A -> H World B) :
  prints_more m -> (forall a, prints_more (k a)) -> prints_more (hbind m k).
Proof.
  intros Hm Hk h. unfold hbind. destruct (Hm h) as (more1 & Hmore1).
  destruct (m h) as [[a|e] h1]; cbn [snd] in *.
  - destruct (Hk a h1) as (more2 & ->). rewrite Hmore1, <- app_assoc.
    by eexists.
  - by eexists.
Qed.

Lemma prints_more_for_cases (test_cases : list json) :
  prints_more (each_case test_cases).
Proof.
  induction test_cases as [|case test_cases IH].
  - intros h. exists []. cbn. by rewrite app_nil_r.
  - cbn [for_cases]. apply prints_more_hbind; [|intros _; exact IH].
    unfold run_test_case.
    repeat (apply prints_more_hbind;
            [first [apply prints_more_print | apply prints_more_hpure
                   | apply prints_more_hagent]|intros ?]).
    apply prints_more_print.
Qed.

(** X14.  [run_tests] first prints how many cases were loaded, before it
    looks at any case; when it returns it has printed that line and exactly
    eight lines for each case. *)
Theorem run_tests_output (test_cases : list json) (h h' : HState World) :
  let loaded :=
    "Loaded " +:+ pretty (length test_cases) +:+ " test cases." +:+ newline in
  (exists more, printed (snd (tests test_cases h)) = printed h ++ loaded :: more) /\
  (tests test_cases h = (HOk tt, h') ->
   length (printed h') = (length (printed h) + 1 + 8 * length test_cases)%nat).
Proof.
  cbv zeta. unfold run_tests, hbind, print. split.
  - destruct (prints_more_for_cases test_cases
                (mkHState (printed h ++ ["Loaded " +:+ pretty (length test_cases)
                                         +:+ " test cases." +:+ newline])
                   (outside h))) as (more & ->).
    cbn [printed]. rewrite <- app_assoc. by exists more.
  - intros Hrun. apply for_cases_ok in Hrun. rewrite Hrun. cbn [printed].
    rewrite length_app. cbn. lia.
Qed.

(** X15.  [run_tests] has no handler around the agent: with a model that
    requests a tool on every call, the first well-formed case ends the whole
    run with the recursion-limit error, after five model calls (the limit is
    10) and after the loaded line and the five header lines of that case;
    no result is printed and the cases after it are never started. *)
Theorem run_tests_aborts_on_recursion_limit
    (case id user_input ctx status items : json) (prompt : string)
    (rest : list json) (h : HState World) :
  (forall seen w, exists content tool_calls w',
     llm_with_tools_invoke seen w = (Ok (content, tool_calls), w') /\
     tool_calls <> []) ->
  getitem case "id" = HOk id ->
  getitem case "user_input" = HOk user_input ->
  getitem case "context" = HOk ctx ->
  getitem ctx "status" = HOk status ->
  getitem ctx "items" = HOk items ->
  format_context_prompt container_text case = HOk prompt ->
  exists env',
    tests (case :: rest) h =
    (HRaise (AgentRaised GraphRecursionError),
     mkHState
       (printed h ++
        ("Loaded " +:+ pretty (length (case :: rest)) +:+ " test cases."
         +:+ newline)
        :: header_lines container_text id user_input status items)
       env') /\
    count_events is_model (trace env') =
      (count_events is_model (trace (outside h)) + 5)%nat.
Proof.
  intros Halways Hid Hui Hctx Hstatus Hitems Hprompt.
  unfold run_tests, hbind at 1, print. cbn [for_cases]. unfold hbind.
  rewrite (run_test_case_well_formed case id user_input ctx status items prompt
             _ Hid Hui Hctx Hstatus Hitems Hprompt).
  cbn [printed outside]. unfold run_case, agent_app_invoke.
  rewrite loop_START.
  destruct (loop_never_done environ requests_post llm_with_tools_invoke
              int_of_str tool_error_text
              [SystemMessage system_instruction; HumanMessage prompt]
              Halways 10 10 ltac:(lia)
              (mkState (messages (mkState []) ++
                        [SystemMessage system_instruction; HumanMessage prompt]))
              (outside h)) as (env' & -> & Hcount).
  exists env'. split; [|exact Hcount].
  by rewrite <- app_assoc.
Qed.

(** X16.  When the model answers a well-formed case at once, the case prints
    its five header lines, then that no action was taken, then the model's
    text as the response, then the closing rule; the model was called once,
    with the system instruction and the formatted prompt. *)
Theorem direct_reply_report
    (case id user_input ctx status items : json) (prompt content : string)
    (h : HState World) (w' : World) :
  getitem case "id" = HOk id ->
  getitem case "user_input" = HOk user_input ->
  getitem case "context" = HOk ctx ->
  getitem ctx "status" = HOk status ->
  getitem ctx "items" = HOk items ->
  format_context_prompt container_text case = HOk prompt ->
  let seed := [SystemMessage system_instruction; HumanMessage prompt] in
  llm_with_tools_invoke seed (world (outside h)) = (Ok (content, []), w') ->
  test_case case h =
  (HOk tt,
   mkHState
     (printed h ++ header_lines container_text id user_input status items ++
      ["ACTION TAKEN: None (Direct Reply)"; "RESPONSE:     " +:+ content;
       str_mul "=" 60 +:+ newline])
     (mkEnv w' (trace (outside h) ++ [EvModel seed]))).
Proof.
  intros Hid Hui Hctx Hstatus Hitems Hprompt seed Hllm.
  rewrite (run_test_case_well_formed case id user_input ctx status items prompt
             h Hid Hui Hctx Hstatus Hitems Hprompt).
  cbv zeta. unfold run_case, agent_app_invoke. rewrite loop_START.
  cbn [messages app]. fold seed.
  rewrite (loop_agent environ requests_post llm_with_tools_invoke int_of_str
             tool_error_text seed 9 (mkState seed) (outside h) content [] w'
             Hllm).
  rewrite loop_END. cbn [messages]. rewrite last_snoc. reflexivity.
Qed.

(** X17.  When the model requests one tool call and then answers, the case
    reports the requested name as the action taken and the model's second
    text as the response.  This holds for every call: also when the name is
    not registered or the arguments were rejected, and the tool node
    answered the call with an error. *)
Theorem requested_tool_is_reported
    (case id user_input ctx status items : json)
    (prompt content1 content2 : string) (call : ToolCall) (result : Message)
    (h : HState World) (env2 : Env World) (w1 w3 : World) :
  getitem case "id" = HOk id ->
  getitem case "user_input" = HOk user_input ->
  getitem case "context" = HOk ctx ->
  getitem ctx "status" = HOk status ->
  getitem ctx "items" = HOk items ->
  format_context_prompt container_text case = HOk prompt ->
  let seed := [SystemMessage system_instruction; HumanMessage prompt] in
  let seen2 := seed ++ [AIMessage content1 [call]; result] in
  llm_with_tools_invoke seed (world (outside h)) = (Ok (content1, [call]), w1) ->
  answer call (mkEnv w1 (trace (outside h) ++ [EvModel seed])) =
    (Ok result, env2) ->
  llm_with_tools_invoke seen2 (world env2) = (Ok (content2, []), w3) ->
  test_case case h =
  (HOk tt,
   mkHState
     (printed h ++ header_lines container_text id user_input status items ++
      ["ACTION TAKEN: " +:+ tc_name call; "RESPONSE:     " +:+ content2;
       str_mul "=" 60 +:+ newline])
     (mkEnv w3 (trace env2 ++ [EvModel seen2]))).
Proof.
  intros Hid Hui Hctx Hstatus Hitems Hprompt seed seen2 Hllm1 Hanswer Hllm2.
  rewrite (run_test_case_well_formed case id user_input ctx status items prompt
             h Hid Hui Hctx Hstatus Hitems Hprompt).
  cbv zeta. unfold run_case, agent_app_invoke. rewrite loop_START.
  cbn [messages app]. fold seed.
  rewrite (loop_agent environ requests_post llm_with_tools_invoke int_of_str
             tool_error_text seed 9 (mkState seed) (outside h) content1 [call]
             w1 Hllm1).
  cbn [messages].
  assert (mapM answer [call] (mkEnv w1 (trace (outside h) ++ [EvModel seed])) =
          (Ok [result], env2)) as Hmap.
  { cbn [mapM]. unfold bind. by rewrite Hanswer. }
  rewrite (loop_tools environ requests_post llm_with_tools_invoke int_of_str
             tool_error_text seed 8
             (mkState (seed ++ [AIMessage content1 [call]]))
             (mkEnv w1 (trace (outside h) ++ [EvModel seed])) env2 content1
             [call] [result] (last_snoc _ _) Hmap).
  cbn [messages]. rewrite <- app_assoc. cbn [app]. fold seed. fold seen2.
  change (seed ++ [AIMessage content1 [call]; result]) with seen2.
  rewrite (loop_agent environ requests_post llm_with_tools_invoke int_of_str
             tool_error_text seed 7 (mkState seen2) env2 content2 [] w3 Hllm2).
  rewrite loop_END. cbn [messages]. rewrite last_snoc.
  destruct (run_one_trace environ requests_post int_of_str tool_error_text call
              (mkEnv w1 (trace (outside h) ++ [EvModel seed])))
    as (c & s & env2' & posts & Hone & _).
  rewrite Hanswer in Hone. injection Hone as -> _.
  reflexivity.
Qed.

End HarnessFacts.

(** ** The further properties on the scripted world *)

Lemma should_continue_errors_witness :
  should_continue (mkState []) = Raise IndexError.
Proof.
  destruct (should_continue_errors (mkState [])) as ((_ & Hempty) & _).
  apply Hempty. reflexivity.
Defined.

Lemma tools_by_name_roundtrip_witness :
  tools_by_name "contact_delivery_partner" = Some tool_contact_delivery_partner.
Proof.
  apply (tools_by_name_roundtrip "contact_delivery_partner"
           tool_contact_delivery_partner).
  reflexivity.
Defined.

Lemma escalate_never_raises_witness :
  let run := Stub.escalate "App crash" "high" (Stub.env0 Stub.w_empty_token) in
  fst run = Ok ESCALATED_SIMULATION /\ snd run = Stub.env0 Stub.w_empty_token.
Proof.
  intros run.
  destruct (escalate_never_raises Stub.environ Stub.requests_post "App crash"
              "high" (Stub.env0 Stub.w_empty_token))
    as (text & env' & Hrun & _ & Hsim).
  destruct Hsim as [-> ->]; [reflexivity|].
  unfold run. fold Stub.escalate in Hrun. by rewrite Hrun.
Defined.

Lemma format_context_prompt_carries_fields_witness :
  exists prompt,
    format_context_prompt Stub.container_text Stub.case_1 = HOk prompt /\
    occurs_in "19:05" prompt /\
    occurs_in "['Chicken Pizza']" prompt /\
    occurs_in "19:45" prompt /\
    occurs_in "Delivered" prompt /\
    occurs_in (dquote +:+ "My pizza arrived burnt." +:+ dquote) prompt.
Proof.
  apply (format_context_prompt_carries_fields Stub.container_text Stub.case_1
           Stub.case_context (JStr "19:05") (JList [JStr "Chicken Pizza"])
           (JStr "19:45") (JStr "Delivered") (JStr "My pizza arrived burnt."));
    vm_compute; reflexivity.
Defined.

Lemma format_context_prompt_failures_witness :
  (KeyError "context" = TypeError \/
   exists key, KeyError "context" = KeyError key /\ key ∈ prompt_keys) /\
  (forall e0,
     getitem Stub.case_without_context "context" = HRaise e0 ->
     KeyError "context" = e0).
Proof.
  apply (format_context_prompt_failures Stub.container_text
           Stub.case_without_context (KeyError "context")).
  vm_compute. reflexivity.
Defined.

Lemma tool_names_are_requested_names_witness :
  action_line (tool_names Stub.seed) = "ACTION TAKEN: None (Direct Reply)".
Proof.
  destruct (tool_names_are_requested_names Stub.seed) as (_ & _ & Hnone).
  apply Hnone. repeat constructor.
Defined.

Lemma for_cases_stops_at_first_failure_witness :
  Stub.for_each_case ([Stub.case_without_context] ++ [Stub.case_1])
    (Stub.h0 Stub.w_plain) =
  Stub.for_each_case [Stub.case_without_context] (Stub.h0 Stub.w_plain).
Proof.
  unfold Stub.for_each_case.
  rewrite (for_cases_stops_at_first_failure Stub.environ Stub.requests_post
             Stub.llm Stub.int_of_str Stub.tool_error_text Stub.container_text
             [Stub.case_without_context] [Stub.case_1] (Stub.h0 Stub.w_plain)).
  vm_compute. reflexivity.
Defined.

Lemma run_tests_output_witness :
  length (printed (snd (Stub.tests [Stub.case_1] (Stub.h0 Stub.w_plain)))) =
  9%nat.
Proof.
  destruct (run_tests_output Stub.environ Stub.requests_post Stub.llm
              Stub.int_of_str Stub.tool_error_text Stub.container_text
              [Stub.case_1] (Stub.h0 Stub.w_plain)
              (snd (Stub.tests [Stub.case_1] (Stub.h0 Stub.w_plain))))
    as (_ & Hlines).
  rewrite Hlines; [reflexivity|]. vm_compute. reflexivity.
Defined.

Lemma run_tests_aborts_on_recursion_limit_witness :
  exists env',
    Stub.run_tests_always [Stub.case_1; Stub.case_1] (Stub.h0 Stub.w_plain) =
    (HRaise (AgentRaised GraphRecursionError),
     mkHState
       (("Loaded 2 test cases." +:+ newline)
        :: header_lines Stub.container_text (JInt 1)
             (JStr "My pizza arrived burnt.") (JStr "Delivered")
             (JList [JStr "Chicken Pizza"]))
       env') /\
    count_events is_model (trace env') = 5%nat.
Proof.
  apply (run_tests_aborts_on_recursion_limit Stub.environ Stub.requests_post
           Stub.llm_always Stub.int_of_str Stub.tool_error_text
           Stub.container_text Stub.case_1 (JInt 1)
           (JStr "My pizza arrived burnt.") Stub.case_context (JStr "Delivered")
           (JList [JStr "Chicken Pizza"]) Stub.prompt_1 [Stub.case_1]
           (Stub.h0 Stub.w_plain));
    try (vm_compute; reflexivity).
  intros seen w. eexists _, _, _. split; [reflexivity|discriminate].
Defined.

Lemma direct_reply_report_witness :
  printed (snd (Stub.test_case Stub.case_1 (Stub.h0 Stub.w_plain))) =
  header_lines Stub.container_text (JInt 1) (JStr "My pizza arrived burnt.")
    (JStr "Delivered") (JList [JStr "Chicken Pizza"]) ++
  ["ACTION TAKEN: None (Direct Reply)"; "RESPONSE:     Happy to help.";
   str_mul "=" 60 +:+ newline].
Proof.
  unfold Stub.test_case.
  rewrite (direct_reply_report Stub.environ Stub.requests_post Stub.llm
             Stub.int_of_str Stub.tool_error_text Stub.container_text
             Stub.case_1 (JInt 1) (JStr "My pizza arrived burnt.")
             Stub.case_context (JStr "Delivered")
             (JList [JStr "Chicken Pizza"]) Stub.prompt_1 "Happy to help."
             (Stub.h0 Stub.w_plain) Stub.w_plain);
    vm_compute; reflexivity.
Defined.

Lemma requested_tool_is_reported_witness :
  let run := Stub.test_case Stub.case_1 (Stub.h0 Stub.w_unknown_tool) in
  tools_by_name "cancel_order" = None /\
  printed (snd run) =
  header_lines Stub.container_text (JInt 1) (JStr "My pizza arrived burnt.")
    (JStr "Delivered") (JList [JStr "Chicken Pizza"]) ++
  ["ACTION TAKEN: cancel_order"; "RESPONSE:     Happy to help.";
   str_mul "=" 60 +:+ newline].
Proof.
  intros run. split; [reflexivity|]. unfold run, Stub.test_case.
  rewrite (requested_tool_is_reported Stub.environ Stub.requests_post Stub.llm
             Stub.int_of_str Stub.tool_error_text Stub.container_text
             Stub.case_1 (JInt 1) (JStr "My pizza arrived burnt.")
             Stub.case_context (JStr "Delivered")
             (JList [JStr "Chicken Pizza"]) Stub.prompt_1 "" "Happy to help."
             Stub.cancel_call
             (ToolMessage (invalid_tool_name_error "cancel_order")
                "cancel_order" "call_7" status_error)
             (Stub.h0 Stub.w_unknown_tool)
             (mkEnv Stub.w_plain [EvModel Stub.seed_1; EvTool Stub.cancel_call])
             Stub.w_plain Stub.w_plain);
    vm_compute; reflexivity.
Defined.
